(** * obsidian-omdb-fetcher: the OMDb client and the placeholder templates

    A shallow embedding of [src/utils/api.ts] (the typed OMDb client) and
    [src/utils/template.ts] (the [{=Key=}] placeholder engine), with the
    properties the specification states about them; then of the command
    that uses both, [src/commands/fetch-movie-data.ts], and of the settings
    of the plugin, [src/main.ts] and [src/settings.ts], with properties of
    their own.

    Conventions of the embedding.
    - A JavaScript string is a [string]; the regular expression engine works
      on its code units, a [list ascii].  Code units outside ASCII are never
      word characters nor delimiters, so nothing depends on their encoding.
    - A JavaScript number is modelled on the integers ([Z]): HTTP statuses,
      years and page numbers are integral, and [String(n)] of an integral
      double below 10^21 in magnitude is its decimal numeral.
    - A plain object is the finite map of its own properties
      ([gmap string JsValue]) in front of [Object.prototype].
    - An [async] function that may throw is a computation in the monad
      [Api.Async]: it threads the trace of the requests handed to the
      transport and ends in a value or in the thrown [OmdbError]. *)

From Stdlib Require Import ZArith String Ascii List DecimalString Lia.
From stdpp Require Import gmap strings list.
Import ListNotations.

Set Warnings "-register-all".

(* ===================================================================== *)
(** ** JavaScript values *)
(* ===================================================================== *)

Module Js.

(** The values a response body, a thrown value or a property can be. *)
Inductive JsValue : Type :=
| JUndefined
| JNull
| JBoolean (b : bool)
| JNumber (n : Z)
| JString (s : string)
| JArray (l : list JsValue)
| JObject (o : gmap string JsValue)
| JFunction.

(** The results of the [typeof] operator. *)
Inductive JsType : Type :=
| TUndefined | TObject | TBoolean | TNumber | TString | TFunction.

#[global] Instance JsType_eq_dec : EqDecision JsType.
Proof. solve_decision. Defined.

Definition typeof (v : JsValue) : JsType :=
  match v with
  | JUndefined => TUndefined
  | JNull => TObject
  | JBoolean _ => TBoolean
  | JNumber _ => TNumber
  | JString _ => TString
  | JArray _ => TObject
  | JObject _ => TObject
  | JFunction => TFunction
  end.

(** [v === null] *)
Definition is_null (v : JsValue) : bool :=
  match v with JNull => true | _ => false end.

(** [v == null]: loose equality holds for [null] and for [undefined]. *)
Definition loosely_null (v : JsValue) : bool :=
  match v with JNull | JUndefined => true | _ => false end.

(** [v === s] for a string literal [s]. *)
Definition strict_eq_string (v : JsValue) (s : string) : bool :=
  match v with JString s' => bool_decide (s' = s) | _ => false end.

(** [Array.isArray(v)] *)
Definition Array_isArray (v : JsValue) : bool :=
  match v with JArray _ => true | _ => false end.

(** The string form of an integral number: [String(n)] and [`${n}`]. *)
Definition Number_toString (n : Z) : string :=
  NilZero.string_of_int (Z.to_int n).

(** The property names every plain object inherits from [Object.prototype].
    Each is a function, except [__proto__], which reads the prototype
    object itself. *)
Definition Object_prototype : list string :=
  [ "constructor"; "hasOwnProperty"; "isPrototypeOf"; "propertyIsEnumerable";
    "toLocaleString"; "toString"; "valueOf";
    "__defineGetter__"; "__defineSetter__"; "__lookupGetter__";
    "__lookupSetter__"; "__proto__" ]%string.

Definition inherited (key : string) : option JsValue :=
  if bool_decide (key = "__proto__"%string) then Some (JObject ∅)
  else if bool_decide (key ∈ Object_prototype) then Some JFunction
  else None.

(** [key in o] for a plain object with own properties [o]. *)
Definition has_property (o : gmap string JsValue) (key : string) : bool :=
  match o !! key with
  | Some _ => true
  | None => match inherited key with Some _ => true | None => false end
  end.

(** [o[key]] for a plain object with own properties [o]. *)
Definition get_property (o : gmap string JsValue) (key : string) : JsValue :=
  match o !! key with
  | Some v => v
  | None => match inherited key with Some v => v | None => JUndefined end
  end.

(** [v[key]] for a value whose [typeof] is ['object'] and that is not
    [null].  An array owns its indices and [length] and inherits methods;
    it is read here only at names that are none of these, where the result
    is [undefined]. *)
Definition get (v : JsValue) (key : string) : JsValue :=
  match v with
  | JObject o => get_property o key
  | _ => JUndefined
  end.

End Js.

Import Js.

(* ===================================================================== *)
(** ** The OMDb client: [src/utils/api.ts] *)
(* ===================================================================== *)

Module Api.

Definition OMDB_BASE_URL : string := "https://www.omdbapi.com/".

(** *** Request option types *)

Inductive OmdbMediaType : Type := movie | series | episode.
Inductive OmdbPlotLength : Type := short | full.

Definition OmdbMediaType_string (t : OmdbMediaType) : string :=
  match t with movie => "movie" | series => "series" | episode => "episode" end.

Definition OmdbPlotLength_string (p : OmdbPlotLength) : string :=
  match p with short => "short" | full => "full" end.

(** An optional field that is absent or [undefined] is [None]. *)
Record OmdbCommonOptions : Type := {
  type : option OmdbMediaType;
  plot : option OmdbPlotLength
}.

Record OmdbFetchByTitleOptions : Type := {
  by_title_common : OmdbCommonOptions;
  year : option Z
}.

Record OmdbSearchOptions : Type := {
  search_common : OmdbCommonOptions;
  page : option Z
}.

(** *** Error class *)

Inductive OmdbErrorKind : Type := network | http | api | parse.

#[global] Instance OmdbErrorKind_eq_dec : EqDecision OmdbErrorKind.
Proof. solve_decision. Defined.

(** An instance of the class: [message] is the field of [Error], [name] the
    constant the constructor sets. *)
Record OmdbError : Type := {
  name : string;
  kind : OmdbErrorKind;
  message : string;
  httpStatus : option Z;
  apiMessage : option string
}.

(** The constructor's third argument, [{ httpStatus?, apiMessage? }]. *)
Record OmdbErrorOptions : Type := {
  options_httpStatus : option Z;
  options_apiMessage : option string
}.

(** [new OmdbError(kind, message, options)]: the two optional fields are
    read through [options?.field], so they stay unset without [options]. *)
Definition new_OmdbError (kind : OmdbErrorKind) (message : string)
    (options : option OmdbErrorOptions) : OmdbError :=
  {| name := "OmdbError";
     kind := kind;
     message := message;
     httpStatus := options ≫= options_httpStatus;
     apiMessage := options ≫= options_apiMessage |}.

(** *** URL builder *)

(** A value of a parameter map: [string | number]. *)
Inductive ParamValue : Type :=
| PString (s : string)
| PNumber (n : Z).

(** [String(value)] *)
Definition String_of (v : ParamValue) : string :=
  match v with
  | PString s => s
  | PNumber n => Number_toString n
  end.

(** A parameter map, [Record<string, string | number | undefined>], as its
    entries in the order [Object.keys] lists them; [None] is [undefined]. *)
Definition Params : Type := list (string * option ParamValue).

Record URL : Type := {
  origin_and_path : string;
  searchParams : list (string * string)
}.

Definition new_URL (s : string) : URL :=
  {| origin_and_path := s; searchParams := [] |}.

(** [URLSearchParams.prototype.set]: the first pair named [name] takes the
    value and the later ones are removed; without one the pair is appended. *)
Fixpoint URLSearchParams_set (name value : string)
    (l : list (string * string)) : list (string * string) :=
  match l with
  | [] => [(name, value)]
  | (n, v) :: l' =>
      if bool_decide (n = name)
      then (name, value) :: filter (fun p => p.1 ≠ name) l'
      else (n, v) :: URLSearchParams_set name value l'
  end.

Definition set_param (name value : string) (url : URL) : URL :=
  {| origin_and_path := origin_and_path url;
     searchParams := URLSearchParams_set name value (searchParams url) |}.

(** The [for (const key of keys)] loop of [buildUrl]. *)
Fixpoint set_defined (params : Params) (url : URL) : URL :=
  match params with
  | [] => url
  | (key, value) :: rest =>
      match value with
      | Some v => set_defined rest (set_param key (String_of v) url)
      | None => set_defined rest url
      end
  end.

Definition buildUrl (apiKey : string) (params : Params) : URL :=
  let url := new_URL OMDB_BASE_URL in
  let url := set_param "apikey" apiKey url in
  let url := set_param "r" "json" url in
  set_defined params url.

(** The entries of a parameter map whose value is defined, each with the
    string form of its value. *)
Definition defined_pairs (params : Params) : list (string * string) :=
  omap (fun '(key, value) => (fun v => (key, String_of v)) <$> value) params.

(** *** Type guards *)

Definition isApiError (body : JsValue) : bool :=
  if negb (bool_decide (typeof body = TObject)) || is_null body then false
  else strict_eq_string (get body "Response") "False"
       && bool_decide (typeof (get body "Error") = TString).

Definition isDetailResult (body : JsValue) : bool :=
  if negb (bool_decide (typeof body = TObject)) || is_null body then false
  else strict_eq_string (get body "Response") "True"
       && bool_decide (typeof (get body "imdbID") = TString).

Definition isSearchResult (body : JsValue) : bool :=
  if negb (bool_decide (typeof body = TObject)) || is_null body then false
  else strict_eq_string (get body "Response") "True"
       && Array_isArray (get body "Search").

(** [body.Error] once [isApiError body] holds: a string. *)
Definition Error_of (body : JsValue) : string :=
  match get body "Error" with JString s => s | _ => "" end.

(** *** The transport and the monad of the client *)

(** The argument of [requestUrl]. *)
Record RequestUrlParam : Type := {
  url : string;
  throw : bool
}.

(** What the transport resolves with: [{ status, json }], [json] being the
    parsed body or [null]. *)
Record RequestUrlResponse : Type := {
  status : Z;
  json : JsValue
}.

(** What a [catch] clause receives: an [Error] instance with its message,
    or any other thrown value. *)
Inductive Thrown : Type :=
| ThrownError (message : string)
| ThrownValue (v : JsValue).

Inductive RequestOutcome : Type :=
| Resolves (response : RequestUrlResponse)
| Rejects (err : Thrown).

(** The requests handed to the transport so far, oldest first. *)
Definition Trace : Type := list RequestUrlParam.

Inductive Result (A : Type) : Type :=
| Returns (a : A)
| Throws (e : OmdbError).
Arguments Returns {A} a.
Arguments Throws {A} e.

(** An [async] computation: from the trace before it to its result and the
    trace after it. *)
Definition Async (A : Type) : Type := Trace -> Result A * Trace.

Definition ret {A} (a : A) : Async A := fun t => (Returns a, t).

Definition raise {A} (e : OmdbError) : Async A := fun t => (Throws e, t).

Definition bind {A B} (c : Async A) (k : A -> Async B) : Async B :=
  fun t =>
    match c t with
    | (Returns a, t') => k a t'
    | (Throws e, t') => (Throws e, t')
    end.

Notation "x <- c ;; k" := (bind c (fun x => k))
  (at level 100, c at next level, right associativity).

(** A call of one of the three exported operations, with its arguments. *)
Inductive ClientCall : Type :=
| CallFetchByTitle (apiKey title : string) (options : OmdbFetchByTitleOptions)
| CallFetchById (apiKey imdbId : string) (options : OmdbCommonOptions)
| CallSearchByTitle (apiKey query : string) (options : OmdbSearchOptions).

Section Client.

(** The host's serializer of one query component
    (application/x-www-form-urlencoded). *)
Variable urlencode : string -> string.

(** The HTTP transport, [requestUrl] of the host: its outcome may depend on
    the requests it has already served. *)
Variable requestUrl : Trace -> RequestUrlParam -> RequestOutcome.

Definition serialize_pair (p : string * string) : string :=
  (urlencode p.1 +:+ "=" +:+ urlencode p.2)%string.

(** [url.toString()] *)
Definition URL_toString (u : URL) : string :=
  match searchParams u with
  | [] => origin_and_path u
  | p :: ps =>
      origin_and_path u +:+ "?" +:+
      fold_left (fun acc q => acc +:+ "&" +:+ serialize_pair q) ps (serialize_pair p)
  end.

(** [await requestUrl(param)] inside [try]: one call of the transport,
    recorded in the trace; a rejection is handed to the [catch] clause. *)
Definition await_requestUrl (param : RequestUrlParam)
    : Async (Thrown + RequestUrlResponse) :=
  fun t =>
    match requestUrl t param with
    | Resolves response => (Returns (inr response), t ++ [param])
    | Rejects err => (Returns (inl err), t ++ [param])
    end.

(** The argument [executeRequest] builds: [{ url: url.toString(), throw: false }]. *)
Definition request_for (u : URL) : RequestUrlParam :=
  {| url := URL_toString u; throw := false |}.

Definition executeRequest (u : URL) : Async JsValue :=
  outcome <- await_requestUrl (request_for u) ;;
  match outcome with
  | inl err =>
      let message :=
        match err with
        | ThrownError m => m
        | ThrownValue _ => "Network error"%string
        end in
      raise (new_OmdbError network message None)
  | inr response =>
      if (400 <=? status response)%Z then
        raise (new_OmdbError http
                 ("OMDb returned HTTP " +:+ Number_toString (status response))
                 (Some {| options_httpStatus := Some (status response);
                          options_apiMessage := None |}))
      else
        let body := json response in
        if loosely_null body then
          raise (new_OmdbError parse "OMDb response was not valid JSON" None)
        else ret body
  end.

(** *** Public API *)

Definition fetchByTitle_params (title : string)
    (options : OmdbFetchByTitleOptions) : Params :=
  [ ("t"%string, Some (PString title));
    ("y"%string, PNumber <$> year options);
    ("type"%string, (fun t => PString (OmdbMediaType_string t)) <$> type (by_title_common options));
    ("plot"%string, (fun p => PString (OmdbPlotLength_string p)) <$> plot (by_title_common options)) ].

Definition fetchById_params (imdbId : string)
    (options : OmdbCommonOptions) : Params :=
  [ ("i"%string, Some (PString imdbId));
    ("type"%string, (fun t => PString (OmdbMediaType_string t)) <$> type options);
    ("plot"%string, (fun p => PString (OmdbPlotLength_string p)) <$> plot options) ].

Definition searchByTitle_params (query : string)
    (options : OmdbSearchOptions) : Params :=
  [ ("s"%string, Some (PString query));
    ("type"%string, (fun t => PString (OmdbMediaType_string t)) <$> type (search_common options));
    ("plot"%string, (fun p => PString (OmdbPlotLength_string p)) <$> plot (search_common options));
    ("page"%string, PNumber <$> page options) ].

Definition fetchByTitle (apiKey title : string)
    (options : OmdbFetchByTitleOptions) : Async JsValue :=
  let u := buildUrl apiKey (fetchByTitle_params title options) in
  body <- executeRequest u ;;
  if isApiError body then
    raise (new_OmdbError api (Error_of body)
             (Some {| options_httpStatus := None;
                      options_apiMessage := Some (Error_of body) |}))
  else if isDetailResult body then ret body
  else raise (new_OmdbError parse "Unexpected response shape from OMDb" None).

Definition fetchById (apiKey imdbId : string)
    (options : OmdbCommonOptions) : Async JsValue :=
  let u := buildUrl apiKey (fetchById_params imdbId options) in
  body <- executeRequest u ;;
  if isApiError body then
    raise (new_OmdbError api (Error_of body)
             (Some {| options_httpStatus := None;
                      options_apiMessage := Some (Error_of body) |}))
  else if isDetailResult body then ret body
  else raise (new_OmdbError parse "Unexpected response shape from OMDb" None).

Definition searchByTitle (apiKey query : string)
    (options : OmdbSearchOptions) : Async JsValue :=
  let u := buildUrl apiKey (searchByTitle_params query options) in
  body <- executeRequest u ;;
  if isApiError body then
    raise (new_OmdbError api (Error_of body)
             (Some {| options_httpStatus := None;
                      options_apiMessage := Some (Error_of body) |}))
  else if isSearchResult body then ret body
  else raise (new_OmdbError parse "Unexpected response shape from OMDb" None).

(** *** The public surface as a whole *)

Definition call_apiKey (c : ClientCall) : string :=
  match c with
  | CallFetchByTitle apiKey _ _ => apiKey
  | CallFetchById apiKey _ _ => apiKey
  | CallSearchByTitle apiKey _ _ => apiKey
  end.

(** The parameter map a call hands to [buildUrl]. *)
Definition call_params (c : ClientCall) : Params :=
  match c with
  | CallFetchByTitle _ title options => fetchByTitle_params title options
  | CallFetchById _ imdbId options => fetchById_params imdbId options
  | CallSearchByTitle _ query options => searchByTitle_params query options
  end.

(** The request URL of a call. *)
Definition call_url (c : ClientCall) : URL :=
  buildUrl (call_apiKey c) (call_params c).

(** Running a call. *)
Definition perform (c : ClientCall) : Async JsValue :=
  match c with
  | CallFetchByTitle apiKey title options => fetchByTitle apiKey title options
  | CallFetchById apiKey imdbId options => fetchById apiKey imdbId options
  | CallSearchByTitle apiKey query options => searchByTitle apiKey query options
  end.

End Client.

(** *** The two halves of an operation

    Not in the source: the result of [executeRequest] as a function of the
    outcome of its request, and what each operation does with the body. *)

(** The way [executeRequest] ends, by the outcome of its one request. *)
Definition executeRequest_result (outcome : RequestOutcome) : Result JsValue :=
  match outcome with
  | Rejects (ThrownError m) => Throws (new_OmdbError network m None)
  | Rejects (ThrownValue _) => Throws (new_OmdbError network "Network error" None)
  | Resolves response =>
      if (400 <=? status response)%Z then
        Throws {| name := "OmdbError"; kind := http;
                  message := "OMDb returned HTTP " +:+ Number_toString (status response);
                  httpStatus := Some (status response);
                  apiMessage := None |}
      else if loosely_null (json response) then
        Throws (new_OmdbError parse "OMDb response was not valid JSON" None)
      else Returns (json response)
  end.

(** What the three operations do with the body [executeRequest] returns. *)
Definition classify (c : ClientCall) (body : JsValue) : Result JsValue :=
  if isApiError body then
    Throws {| name := "OmdbError"; kind := api; message := Error_of body;
              httpStatus := None; apiMessage := Some (Error_of body) |}
  else if match c with
          | CallSearchByTitle _ _ _ => isSearchResult body
          | _ => isDetailResult body
          end
  then Returns body
  else Throws (new_OmdbError parse "Unexpected response shape from OMDb" None).

End Api.

(* ===================================================================== *)
(** ** The placeholder templates: [src/utils/template.ts] *)
(* ===================================================================== *)

Module Template.

(** *** The regular expression [/\{=(\w+)=\}/g] *)

(** The class [\w]: [A-Za-z0-9_]. *)
Definition is_word_char (c : ascii) : bool :=
  let n := nat_of_ascii c in
  ((48 <=? n) && (n <=? 57)) || ((65 <=? n) && (n <=? 90))
  || (n =? 95) || ((97 <=? n) && (n <=? 122)).

(** [\w+] is greedy: it takes the longest run of word characters.  The
    result is that run and what follows it. *)
Fixpoint word_run (s : list ascii) : list ascii * list ascii :=
  match s with
  | c :: s' =>
      if is_word_char c
      then let '(w, rest) := word_run s' in (c :: w, rest)
      else ([], s)
  | [] => ([], [])
  end.

(** A literal of the expression: [strip_literal p s] is what follows [p]
    when [s] starts with it. *)
Fixpoint strip_literal (p s : list ascii) : option (list ascii) :=
  match p with
  | [] => Some s
  | c :: p' =>
      match s with
      | d :: s' => if bool_decide (c = d) then strip_literal p' s' else None
      | [] => None
      end
  end.

Definition OPEN : list ascii := ["{"; "="]%char.
Definition CLOSE : list ascii := ["="; "}"]%char.

(** A match of the expression that starts at the head of [s]: the capture
    group and the text after the match.  A shorter run than the longest one
    is followed by a word character, never by [=], so backtracking into
    [\w+] finds no other match. *)
Definition match_here (s : list ascii) : option (list ascii * list ascii) :=
  match strip_literal OPEN s with
  | None => None
  | Some s1 =>
      match word_run s1 with
      | ([], _) => None
      | (key, s2) =>
          match strip_literal CLOSE s2 with
          | None => None
          | Some rest => Some (key, rest)
          end
      end
  end.

(** The text cut at the matches of the global expression, from left to
    right: a match with its capture group, or a code unit no match covers. *)
Inductive Piece : Type :=
| Unmatched (c : ascii)
| Matched (key : list ascii).

(** The search resumes after a match, or one code unit further when none
    starts here.  Every step consumes text: the length of the text is fuel
    enough. *)
Fixpoint scan (fuel : nat) (s : list ascii) : list Piece :=
  match fuel with
  | 0 => []
  | S fuel' =>
      match s with
      | [] => []
      | c :: s' =>
          match match_here s with
          | Some (key, rest) => Matched key :: scan fuel' rest
          | None => Unmatched c :: scan fuel' s'
          end
      end
  end.

Definition pieces (s : list ascii) : list Piece := scan (length s) s.

(** The text of a match with capture group [key]. *)
Definition placeholder (key : list ascii) : list ascii :=
  OPEN ++ key ++ CLOSE.

(** *** [String.prototype.replace] with a replacer function *)

Section Replace.

(** The replacer may update what it closes over: it takes and returns that
    state. *)
Context {St : Type}.
Variable replacer : string -> string -> St -> string * St.

(** The replacer is called once per match, in order, with the matched text
    and the capture group; unmatched text is copied. *)
Fixpoint replace_pieces (ps : list Piece) (st : St) : list ascii * St :=
  match ps with
  | [] => ([], st)
  | Unmatched c :: ps' =>
      let '(out, st') := replace_pieces ps' st in (c :: out, st')
  | Matched key :: ps' =>
      let '(r, st1) := replacer (string_of_list_ascii (placeholder key))
                                (string_of_list_ascii key) st in
      let '(out, st2) := replace_pieces ps' st1 in
      (list_ascii_of_string r ++ out, st2)
  end.

Definition String_replace (s : string) (st : St) : string * St :=
  let '(out, st') := replace_pieces (pieces (list_ascii_of_string s)) st in
  (string_of_list_ascii out, st').

End Replace.

(** *** [applyTemplate] *)

Definition EXCLUDED_KEYS : gset string := {[ "Response"%string ]}.

Record ApplyTemplateResult : Type := {
  content : string;
  replaced : nat
}.

(** The arrow function handed to [replace]; [replaced] is the counter it
    closes over. *)
Definition replacer (data : gmap string JsValue) (match_ key : string)
    (replaced : nat) : string * nat :=
  if bool_decide (key ∈ EXCLUDED_KEYS) then (match_, replaced)
  else if negb (has_property data key) then (match_, replaced)
  else
    match get_property data key with
    | JString s => (s, S replaced)
    | JNumber n => (Number_toString n, S replaced)
    | _ => (match_, replaced)
    end.

Definition applyTemplate (content : string) (data : gmap string JsValue)
    : ApplyTemplateResult :=
  let '(result, replaced) := String_replace (replacer data) content 0 in
  {| content := result; replaced := replaced |}.

(** *** The vocabulary of the properties

    What follows is not in the source: it names what the properties speak
    of, first on code units, then on strings. *)

(** A capture group: a non-empty run of word characters. *)
Definition identifier (key : list ascii) : Prop :=
  key ≠ [] ∧ Forall (fun c => is_word_char c = true) key.

(** [c] is one of the three characters of the delimiters. *)
Definition delimiter (c : ascii) : Prop :=
  c = "{"%char ∨ c = "="%char ∨ c = "}"%char.

(** No placeholder occurs in [s]. *)
Definition placeholder_free (s : list ascii) : Prop :=
  forall pre key post, identifier key -> s <> pre ++ placeholder key ++ post.

(** What the replacer puts in place of a match with capture group [key],
    when it replaces it. *)
Definition substitute (data : gmap string JsValue) (key : list ascii)
    : option (list ascii) :=
  let k := string_of_list_ascii key in
  if bool_decide (k ∈ EXCLUDED_KEYS) then None
  else if negb (has_property data k) then None
  else
    match get_property data k with
    | JString s => Some (list_ascii_of_string s)
    | JNumber n => Some (list_ascii_of_string (Number_toString n))
    | _ => None
    end.

(** The text a piece turns into. *)
Definition render (data : gmap string JsValue) (p : Piece) : list ascii :=
  match p with
  | Unmatched c => [c]
  | Matched key =>
      match substitute data key with
      | Some v => v
      | None => placeholder key
      end
  end.

Definition output (data : gmap string JsValue) (ps : list Piece) : list ascii :=
  concat (map (render data) ps).

(** The matches the replacer replaces. *)
Definition substituted (data : gmap string JsValue) (p : Piece) : bool :=
  match p with
  | Unmatched _ => false
  | Matched key => match substitute data key with Some _ => true | None => false end
  end.

Definition count (data : gmap string JsValue) (ps : list Piece) : nat :=
  length (List.filter (substituted data) ps).

(** [key] matches [\w+]. *)
Definition is_identifier (key : string) : Prop :=
  identifier (list_ascii_of_string key).

(** The placeholder [{=key=}]. *)
Definition placeholder_text (key : string) : string :=
  ("{=" +:+ key +:+ "=}")%string.

(** [text] holds an occurrence of the placeholder syntax. *)
Definition has_placeholder (text : string) : Prop :=
  exists pre key post,
    is_identifier key /\ text = (pre +:+ placeholder_text key +:+ post)%string.

(** [v] occurs inside [k]. *)
Definition occurs_in (v k : list ascii) : Prop :=
  exists a b, k = a ++ v ++ b.

(** The text a piece was cut from. *)
Definition raw (p : Piece) : list ascii :=
  match p with
  | Unmatched c => [c]
  | Matched key => placeholder key
  end.

Definition source (ps : list Piece) : list ascii := concat (map raw ps).

(** [ps] is the scan of its own text. *)
Definition scanned (ps : list Piece) : Prop := pieces (source ps) = ps.

(** The replacer substitutes [v] for the placeholder of [key]. *)
Definition substitutes (data : gmap string JsValue) (key v : string) : Prop :=
  is_identifier key /\ (key ∉ EXCLUDED_KEYS) /\ has_property data key = true /\
  (get_property data key = JString v \/
   exists n, get_property data key = JNumber n /\ v = Number_toString n).

(** No text the replacer substitutes holds a character of the delimiters,
    and none occurs inside an identifier the replacer substitutes. *)
Definition stable_data (data : gmap string JsValue) : Prop :=
  forall key v, substitutes data key v ->
    (forall c, c ∈ list_ascii_of_string v -> ~ delimiter c) /\
    (forall key' v', substitutes data key' v' ->
       forall a b, key' <> (a +:+ v +:+ b)%string).

(** The same conditions as functions to [bool], to check them on a given
    record by evaluation. *)
Definition is_identifierb (key : string) : bool :=
  match list_ascii_of_string key with
  | [] => false
  | l => forallb is_word_char l
  end.

(** The identifiers the replacer substitutes, each with its text. *)
Definition substitutions (data : gmap string JsValue) : list (string * string) :=
  omap (fun '(key, value) =>
          if is_identifierb key && negb (bool_decide (key ∈ EXCLUDED_KEYS)) then
            match value with
            | JString s => Some (key, s)
            | JNumber n => Some (key, Number_toString n)
            | _ => None
            end
          else None)
       (map_to_list data).

Definition delimiterb (c : ascii) : bool :=
  bool_decide (c = "{"%char) || bool_decide (c = "="%char) || bool_decide (c = "}"%char).

Fixpoint occursb (v k : list ascii) : bool :=
  match strip_literal v k with
  | Some _ => true
  | None => match k with [] => false | _ :: k' => occursb v k' end
  end.

Definition stable_datab (data : gmap string JsValue) : bool :=
  let subs := substitutions data in
  forallb (fun '(_, v) =>
             forallb (fun c => negb (delimiterb c)) (list_ascii_of_string v)
             && forallb (fun '(key', _) =>
                           negb (occursb (list_ascii_of_string v)
                                         (list_ascii_of_string key')))
                        subs)
          subs.

End Template.

(* ===================================================================== *)
(** ** The command: [src/commands/fetch-movie-data.ts] *)
(* ===================================================================== *)

Module Command.

Import Api Template.

(** *** The regular expression [/^(.+)\s+\((\d{4})\)$/]

    A basename is read as its code units, each below 256.  Among these the
    class [\s] holds the codes 9 to 13, 32 and 160, the line terminators,
    which [.] does not match, are 10 and 13, and [\d] is [0-9]. *)

Definition is_space (c : ascii) : bool :=
  let n := nat_of_ascii c in
  ((9 <=? n) && (n <=? 13)) || (n =? 32) || (n =? 160).

Definition is_line_terminator (c : ascii) : bool :=
  let n := nat_of_ascii c in (n =? 10) || (n =? 13).

(** The class of [.]. *)
Definition is_dot (c : ascii) : bool := negb (is_line_terminator c).

Definition is_digit (c : ascii) : bool :=
  let n := nat_of_ascii c in (48 <=? n) && (n <=? 57).

(** The longest run of code units of a class at the head of [s], and what
    follows it. *)
Fixpoint class_run (p : ascii -> bool) (s : list ascii)
    : list ascii * list ascii :=
  match s with
  | c :: s' =>
      if p c then let '(w, rest) := class_run p s' in (c :: w, rest)
      else ([], s)
  | [] => ([], [])
  end.

(** [\s+\((\d{4})\)$] at the head of [s]: the second capture group.  The
    greedy [\s+] takes the whole run of blanks; giving some back never
    helps, since [\(] matches no blank. *)
Definition match_suffix (s : list ascii) : option (list ascii) :=
  match class_run is_space s with
  | ([], _) => None
  | (_, s1) =>
      match strip_literal ["("%char] s1 with
      | None => None
      | Some s2 =>
          let digits := take 4 s2 in
          if (length digits =? 4) && forallb is_digit digits then
            match drop 4 s2 with
            | [c] => if bool_decide (c = ")"%char) then Some digits else None
            | _ => None
            end
          else None
      end
  end.

(** The greedy [.+] with its backtracking: it first takes [k] code units,
    the most it can, and gives them back one by one until the rest of the
    expression matches. *)
Fixpoint match_prefix (k : nat) (s : list ascii)
    : option (list ascii * list ascii) :=
  match k with
  | 0 => None
  | S k' =>
      match match_suffix (drop k s) with
      | Some digits => Some (take k s, digits)
      | None => match_prefix k' s
      end
  end.

(** [s.match(FILENAME_PATTERN)]: the two capture groups of the match, which
    can only start at the head of [s]. *)
Definition FILENAME_PATTERN_match (s : list ascii)
    : option (list ascii * list ascii) :=
  match_prefix (length (fst (class_run is_dot s))) s.

(** *** [parseInt] and [ToString] *)

Definition digit_value (c : ascii) : Z := Z.of_nat (nat_of_ascii c - 48).

(** [parseInt(s, 10)] for a string of decimal digits, which the second
    capture group is. *)
Definition parseInt (s : list ascii) : Z :=
  fold_left (fun acc c => (10 * acc + digit_value c)%Z) s 0%Z.

(** The conversion to a string of a template literal.  An object converts
    through the [toString] it inherits, unless an own property of that name
    hides it: the own property of a parsed object is no function, and the
    conversion throws a [TypeError] ([None]).  An array joins the
    conversions of its elements, [null] and [undefined] counting as empty.
    A function prints its source text; no value read here is one. *)
Fixpoint ToString (v : JsValue) : option string :=
  match v with
  | JUndefined => Some "undefined"%string
  | JNull => Some "null"%string
  | JBoolean b => Some (if b then "true" else "false")%string
  | JNumber n => Some (Number_toString n)
  | JString s => Some s
  | JArray l =>
      match (fix elements (l : list JsValue) : option (list string) :=
               match l with
               | [] => Some []
               | x :: l' =>
                   match (match x with
                          | JUndefined | JNull => Some ""%string
                          | _ => ToString x
                          end), elements l' with
                   | Some s, Some r => Some (s :: r)
                   | _, _ => None
                   end
               end) l with
      | Some texts => Some (String.concat "," texts)
      | None => None
      end
  | JObject o =>
      match o !! "toString"%string with
      | Some _ => None
      | None => Some "[object Object]"%string
      end
  | JFunction => Some "function () { [native code] }"%string
  end.

(** *** [fetchMovieData] *)

(** What the command does to the user interface. *)
Inductive UiEffect : Type :=
| Notice (text : string)
| SetValue (content : string).

(** The own properties of the value [fetchByTitle] returns. *)
Definition record_of (result : JsValue) : gmap string JsValue :=
  match result with
  | JObject o => o
  | _ => ∅
  end.

Definition DOUBLE_QUOTE : string := String "034"%char EmptyString.

Section Host.

Variable urlencode : string -> string.
Variable requestUrl : Trace -> RequestUrlParam -> RequestOutcome.

(** [file] is the basename of [view.file], if there is one; [apiKey] is
    [plugin.settings.omdbApiKey]; [note] is what [editor.getValue()]
    returns when it is called, after the response has arrived.  The result
    is what the command shows and writes, in order, and the trace of the
    transport. *)
Definition fetchMovieData (file : option string) (apiKey : string)
    (note : string) (t : Trace) : list UiEffect * Trace :=
  match file with
  | None => ([Notice "No active file"], t)
  | Some basename =>
      match FILENAME_PATTERN_match (list_ascii_of_string basename) with
      | None => ([Notice "Filename must be in the format: Name (Year)"], t)
      | Some (group1, group2) =>
          let title := string_of_list_ascii group1 in
          let year := parseInt group2 in
          match fetchByTitle urlencode requestUrl apiKey title
                  {| by_title_common := {| type := None; plot := None |};
                     year := Some year |} t with
          | (Returns result, t') =>
              let r := applyTemplate note (record_of result) in
              if (replaced r =? 0)%nat then
                ([Notice "No {=...=} placeholders found in note"], t')
              else
                match ToString (get result "Title") with
                | Some title' =>
                    ([SetValue (content r);
                      Notice ("Fetched data for " +:+ DOUBLE_QUOTE +:+ title'
                              +:+ DOUBLE_QUOTE)], t')
                | None =>
                    ([SetValue (content r);
                      Notice "Unknown error fetching movie data"], t')
                end
          | (Throws err, t') => ([Notice (message err)], t')
          end
      end
  end.

End Host.

(** *** The vocabulary of the properties

    What follows is not in the source. *)


(** The call of the client the command makes for a name with these groups. *)
Definition command_call (apiKey : string) (group1 group2 : list ascii)
    : ClientCall :=
  CallFetchByTitle apiKey (string_of_list_ascii group1)
    {| by_title_common := {| type := None; plot := None |};
       year := Some (parseInt group2) |}.

(** What the command shows and writes once the call has ended. *)
Definition completion (note : string) (outcome : Result JsValue)
    : list UiEffect :=
  match outcome with
  | Returns result =>
      let r := applyTemplate note (record_of result) in
      if (replaced r =? 0)%nat then
        [Notice "No {=...=} placeholders found in note"]
      else
        match ToString (get result "Title") with
        | Some title' =>
            [SetValue (content r);
             Notice ("Fetched data for " +:+ DOUBLE_QUOTE +:+ title'
                     +:+ DOUBLE_QUOTE)]
        | None =>
            [SetValue (content r); Notice "Unknown error fetching movie data"]
        end
  | Throws err => [Notice (message err)]
  end.

(** The digit of value [d]. *)
Definition digit (d : nat) : ascii := ascii_of_nat (48 + d).

(** The year of four digits lies between 0 and 9999, and prints as its
    digits unless the first is a zero. *)
Definition year_check (a b c d : nat) : bool :=
  let digits := [digit a; digit b; digit c; digit d] in
  let year := parseInt digits in
  (0 <=? year)%Z && (year <=? 9999)%Z &&
  ((a =? 0) || String.eqb (Number_toString year) (string_of_list_ascii digits)).

End Command.

(* ===================================================================== *)
(** ** The plugin and its settings: [src/main.ts], [src/settings.ts] *)
(* ===================================================================== *)

Module Plugin.

Definition DEFAULT_SETTINGS : gmap string JsValue :=
  {[ "omdbApiKey"%string := JString "default" ]}.

(** The own enumerable properties of a source of [Object.assign]: those of
    an object, the elements of an array and the code units of a string
    under their indices, none for another primitive, [null] or
    [undefined]. *)
Definition own_enumerable (source : JsValue) : gmap string JsValue :=
  match source with
  | JObject o => o
  | JArray l =>
      list_to_map (imap (fun i v => (Number_toString (Z.of_nat i), v)) l)
  | JString s =>
      list_to_map (imap (fun i c => (Number_toString (Z.of_nat i),
                                     JString (String c EmptyString)))
                        (list_ascii_of_string s))
  | _ => ∅
  end.

(** [Object.assign(target, source)] for a target whose prototype is
    [Object.prototype]: every own enumerable property of the source is set
    on the target.  Setting [__proto__] runs the setter the target
    inherits, which adds no own property. *)
Definition Object_assign (target : gmap string JsValue) (source : JsValue)
    : gmap string JsValue :=
  filter (fun p => p.1 ≠ "__proto__"%string) (own_enumerable source) ∪ target.

(** The plugin: its [settings], by their own properties, and the data the
    host keeps for it, which [loadData] resolves with ([null] when there is
    none) and [saveData] replaces. *)
Record PluginState : Type := {
  settings : gmap string JsValue;
  stored : JsValue
}.

(** [loadSettings], run by [onload]; [data] is what [loadData()] resolves
    with, a value parsed from JSON or [null]. *)
Definition loadSettings (data : JsValue) : PluginState :=
  {| settings := Object_assign (Object_assign ∅ (JObject DEFAULT_SETTINGS)) data;
     stored := data |}.

(** [saveSettings]: the settings are made of parsed values and of strings,
    which the host's JSON file gives back as they were. *)
Definition saveSettings (p : PluginState) : PluginState :=
  {| settings := settings p; stored := JObject (settings p) |}.

(** The [onChange] handler of the settings tab. *)
Definition onChange (value : string) (p : PluginState) : PluginState :=
  saveSettings {| settings := <["omdbApiKey"%string := JString value]> (settings p);
                  stored := stored p |}.

(** *** The vocabulary of the properties *)

(** The plugin after it was loaded on [data] and the key was then changed
    to each of [values] in turn. *)
Definition after_changes (data : JsValue) (values : list string) : PluginState :=
  fold_left (fun p value => onChange value p) values (loadSettings data).

End Plugin.

(* ===================================================================== *)
(** ** Concrete inputs *)
(* ===================================================================== *)

Module Examples.

Import Api.

Definition hex_digit (n : nat) : ascii :=
  nth n (list_ascii_of_string "0123456789ABCDEF") "0"%char.

(** The serializer of the URL standard for application/x-www-form-urlencoded:
    a space is [+], letters, digits and [*-._] stand for themselves, any
    other byte is percent-encoded. *)
Fixpoint form_urlencode (s : string) : string :=
  match s with
  | EmptyString => EmptyString
  | String c s' =>
      let n := nat_of_ascii c in
      if n =? 32 then String "+" (form_urlencode s')
      else if Template.is_word_char c || (n =? 42) || (n =? 45) || (n =? 46)
      then String c (form_urlencode s')
      else String "%" (String (hex_digit (n / 16))
                         (String (hex_digit (n mod 16)) (form_urlencode s')))
  end.

Definition no_options : OmdbCommonOptions := {| type := None; plot := None |}.

Definition year_1997 : OmdbFetchByTitleOptions :=
  {| by_title_common := no_options; year := Some 1997%Z |}.

Definition first_page : OmdbSearchOptions :=
  {| search_common := {| type := Some movie; plot := None |}; page := None |}.

Definition call_title : ClientCall :=
  CallFetchByTitle "k" "Good Will Hunting" year_1997.

Definition call_search : ClientCall := CallSearchByTitle "k" "A" first_page.

(** The body OMDb sends for a title it does not know. *)
Definition not_found : JsValue :=
  JObject {[ "Response"%string := JString "False";
             "Error"%string := JString "Movie not found!" ]}.

(** A failure body that also carries the fields the success guards read. *)
Definition failure_with_success_fields : JsValue :=
  JObject {[ "Response"%string := JString "False";
             "Error"%string := JString "X";
             "imdbID"%string := JString "tt1";
             "Search"%string := JArray [] ]}.

Definition search_entry : JsValue :=
  JObject {[ "Title"%string := JString "A"; "Year"%string := JString "1990";
             "imdbID"%string := JString "tt1"; "Type"%string := JString "movie";
             "Poster"%string := JString "-" ]}.

Definition search_fields : gmap string JsValue :=
  {[ "Response"%string := JString "True";
     "Search"%string := JArray [search_entry];
     "totalResults"%string := JString "1" ]}.

(** The error of a 404 response. *)
Definition http_404 : OmdbError :=
  {| name := "OmdbError"; kind := http; message := "OMDb returned HTTP 404";
     httpStatus := Some 404%Z; apiMessage := None |}.

(** A transport that answers every request with the same response. *)
Definition answers (status : Z) (body : JsValue)
    : Trace -> RequestUrlParam -> RequestOutcome :=
  fun _ _ => Resolves {| status := status; json := body |}.

(** A thrown value that is no [Error] and carries a message all the same. *)
Definition thrown_object : JsValue :=
  JObject {[ "message"%string := JString "socket hang up" ]}.

(** A transport that rejects every request with the same value. *)
Definition rejects (err : Thrown) : Trace -> RequestUrlParam -> RequestOutcome :=
  fun _ _ => Rejects err.

(** A detail result. *)
Definition good_will_hunting : gmap string JsValue :=
  {[ "Response"%string := JString "True";
     "imdbID"%string := JString "tt1285016";
     "Title"%string := JString "Good Will Hunting";
     "Year"%string := JString "1997" ]}.

(** A detail result whose title is itself written as a placeholder. *)
Definition title_is_placeholder : gmap string JsValue :=
  {[ "Response"%string := JString "True";
     "imdbID"%string := JString "tt0000001";
     "Title"%string := JString "{=Year=}";
     "Year"%string := JString "1997" ]}.

(** A detail result whose title is the name of another field. *)
Definition title_is_field_name : gmap string JsValue :=
  {[ "Response"%string := JString "True";
     "imdbID"%string := JString "tt0000002";
     "Title"%string := JString "Year";
     "Year"%string := JString "1997" ]}.

(** A failure body without the text of the error. *)
Definition failure_without_text : JsValue :=
  JObject {[ "Response"%string := JString "False" ]}.

(** The result of a search without its count. *)
Definition search_without_total : gmap string JsValue :=
  {[ "Response"%string := JString "True";
     "Search"%string := JArray [search_entry] ]}.

(** A detail result whose title is an object that hides [toString]. *)
Definition title_is_object : gmap string JsValue :=
  {[ "Response"%string := JString "True";
     "imdbID"%string := JString "tt0000003";
     "Title"%string := JObject {[ "toString"%string := JNumber 1 ]};
     "Year"%string := JString "1997" ]}.

(** The name of a note, and a note. *)
Definition film_name : string := "Good Will Hunting (1997)".

Definition film_note : string := "{=Title=}, {=Year=}".

End Examples.

(* ===================================================================== *)
(** ** Properties of the client *)
(* ===================================================================== *)

Module ApiProperties.

Import Api.

(** *** The request URL *)

(** [set] on a name the query does not hold appends the pair. *)
Lemma URLSearchParams_set_fresh name value l :
  name ∉ l.*1 -> URLSearchParams_set name value l = l ++ [(name, value)].
Proof.
  induction l as [| [n v] l IH]; cbn; [reflexivity |].
  intros Hfresh. apply not_elem_of_cons in Hfresh as [Hne Hfresh].
  rewrite bool_decide_eq_false_2 by congruence.
  rewrite IH by assumption. reflexivity.
Qed.

Lemma defined_pairs_keys params key :
  key ∈ (defined_pairs params).*1 -> key ∈ params.*1.
Proof.
  induction params as [| [k [v |]] params IH]; cbn; [easy | |].
  - rewrite !elem_of_cons. intros [-> | H]; [left | right]; auto.
  - rewrite elem_of_cons. auto.
Qed.

Lemma set_defined_fresh params u :
  NoDup params.*1 ->
  (forall key, key ∈ params.*1 -> key ∉ (searchParams u).*1) ->
  searchParams (set_defined params u) = searchParams u ++ defined_pairs params.
Proof.
  revert u. induction params as [| [k [v |]] params IH]; intros u Hnd Hfresh; cbn.
  - rewrite app_nil_r. reflexivity.
  - cbn in Hnd. apply NoDup_cons in Hnd as [Hk Hnd].
    rewrite IH; [| assumption |].
    + cbn. rewrite URLSearchParams_set_fresh.
      * rewrite <- app_assoc. reflexivity.
      * apply Hfresh. cbn. left.
    + intros key Hkey. cbn. rewrite URLSearchParams_set_fresh.
      * rewrite fmap_app. cbn. rewrite elem_of_app, list_elem_of_singleton.
        intros [Hin | ->]; [| contradiction].
        revert Hin. apply Hfresh. cbn. right. assumption.
      * apply Hfresh. cbn. left.
  - cbn in Hnd. apply NoDup_cons in Hnd as [Hk Hnd].
    apply IH; [assumption |].
    intros key Hkey. apply Hfresh. cbn. right. assumption.
Qed.

(** The query of [buildUrl] for a parameter map with distinct keys, none of
    them [apikey] or [r]. *)
Lemma buildUrl_searchParams apiKey params :
  NoDup params.*1 ->
  "apikey"%string ∉ params.*1 ->
  "r"%string ∉ params.*1 ->
  searchParams (buildUrl apiKey params) =
    ("apikey"%string, apiKey) :: ("r"%string, "json"%string) :: defined_pairs params.
Proof.
  intros Hnd Hk Hr. unfold buildUrl. cbv zeta.
  assert (searchParams (set_param "r" "json" (set_param "apikey" apiKey (new_URL OMDB_BASE_URL)))
          = [("apikey"%string, apiKey); ("r"%string, "json"%string)]) as Hbase
    by reflexivity.
  rewrite set_defined_fresh; [rewrite Hbase; reflexivity | assumption |].
  intros key Hkey. rewrite Hbase. cbn. rewrite !elem_of_cons, elem_of_nil.
  intros [-> | [-> | []]]; contradiction.
Qed.

Lemma defined_pairs_undefined params key :
  NoDup params.*1 -> (key, None) ∈ params -> key ∉ (defined_pairs params).*1.
Proof.
  induction params as [| [k [v |]] params IH]; cbn; intros Hnd Hin.
  - apply elem_of_nil in Hin as [].
  - apply NoDup_cons in Hnd as [Hk Hnd].
    apply elem_of_cons in Hin as [Heq | Hin]; [discriminate |].
    apply not_elem_of_cons. split; [| auto].
    intros ->. apply Hk. apply list_elem_of_fmap. exists (k, None). auto.
  - apply NoDup_cons in Hnd as [Hk Hnd].
    apply elem_of_cons in Hin as [Heq | Hin]; [| auto].
    inversion Heq; subst. intros Hin. apply Hk. eapply defined_pairs_keys, Hin.
Qed.

Lemma defined_pairs_defined params key v s :
  NoDup params.*1 -> (key, Some v) ∈ params ->
  (key, s) ∈ defined_pairs params <-> s = String_of v.
Proof.
  induction params as [| [k [w |]] params IH]; cbn; intros Hnd Hin.
  - apply elem_of_nil in Hin as [].
  - apply NoDup_cons in Hnd as [Hk Hnd]. rewrite elem_of_cons.
    apply elem_of_cons in Hin as [Heq | Hin].
    + inversion Heq; subst. split; [| intros ->; left; reflexivity].
      intros [Heq' | Hin']; [congruence |].
      exfalso. apply Hk. eapply defined_pairs_keys.
      apply list_elem_of_fmap. exists (k, s). auto.
    + rewrite <- (IH Hnd Hin). split; [| auto].
      intros [Heq' | Hin']; [| assumption].
      inversion Heq'; subst. exfalso. apply Hk.
      apply list_elem_of_fmap. exists (k, Some v). auto.
  - apply NoDup_cons in Hnd as [Hk Hnd].
    apply elem_of_cons in Hin as [Heq | Hin]; [discriminate | auto].
Qed.

(** The parameter maps of the three operations are such maps. *)
Lemma call_params_keys (c : ClientCall) :
  NoDup (call_params c).*1 /\
  ("apikey"%string ∉ (call_params c).*1) /\ ("r"%string ∉ (call_params c).*1).
Proof.
  destruct c; cbn; (split; [| split]).
  all: apply (bool_decide_unpack _); vm_compute; exact I.
Qed.

(** C5. The query of every request URL the client builds is [apikey], then
    [r=json], then the defined entries of the parameter map in their order.
    So the mandatory [apikey] and the fixed [r=json] are present; a key of
    the parameter map whose value is [undefined] does not occur at all; and
    a key whose value is defined occurs with the string form of that value
    and no other. *)
Theorem query_of_defined_parameters (c : ClientCall) :
  let query := searchParams (call_url c) in
  query = ("apikey"%string, call_apiKey c) :: ("r"%string, "json"%string)
          :: defined_pairs (call_params c) /\
  ("apikey"%string, call_apiKey c) ∈ query /\
  ("r"%string, "json"%string) ∈ query /\
  (forall key, (key, None) ∈ call_params c -> key ∉ query.*1) /\
  (forall key v, (key, Some v) ∈ call_params c ->
     forall s, (key, s) ∈ query <-> s = String_of v).
Proof.
  destruct (call_params_keys c) as (Hnd & Hk & Hr).
  cbv zeta. unfold call_url. rewrite buildUrl_searchParams by assumption.
  split; [reflexivity |]. split; [left |]. split; [right; left |]. split.
  - intros key Hin. cbn. rewrite !not_elem_of_cons. repeat split.
    + intros ->. apply Hk, list_elem_of_fmap. exists ("apikey"%string, None). auto.
    + intros ->. apply Hr, list_elem_of_fmap. exists ("r"%string, None). auto.
    + apply defined_pairs_undefined; assumption.
  - intros key v Hin s. rewrite <- (defined_pairs_defined _ key v s Hnd Hin).
    rewrite !elem_of_cons. split; [| auto].
    intros [Heq | [Heq | Hin']]; [| | assumption]; inversion Heq; subst; exfalso.
    + apply Hk, list_elem_of_fmap. exists ("apikey"%string, Some v). auto.
    + apply Hr, list_elem_of_fmap. exists ("r"%string, Some v). auto.
Qed.

(** *** The request and the classification of its outcome *)

Section Transport.

Variable urlencode : string -> string.
Variable requestUrl : Trace -> RequestUrlParam -> RequestOutcome.

Local Abbreviation request_for := (Api.request_for urlencode).
Local Abbreviation executeRequest := (Api.executeRequest urlencode requestUrl).
Local Abbreviation perform := (Api.perform urlencode requestUrl).

(** [executeRequest] hands exactly one request to the transport, whatever
    its outcome. *)
Lemma executeRequest_once (u : URL) (t : Trace) :
  executeRequest u t =
    (executeRequest_result (requestUrl t (request_for u)), t ++ [request_for u]).
Proof.
  unfold Api.executeRequest, bind, await_requestUrl, executeRequest_result.
  destruct (requestUrl t (request_for u)) as [response | [m | v]]; try reflexivity.
  destruct (400 <=? status response)%Z; [reflexivity |].
  destruct (loosely_null (json response)); reflexivity.
Qed.

(** Every operation is its one request followed by the classification of
    the body. *)
Lemma perform_unfold (c : ClientCall) (t : Trace) :
  perform c t =
    (match executeRequest_result (requestUrl t (request_for (call_url c))) with
     | Returns body => classify c body
     | Throws e => Throws e
     end,
     t ++ [request_for (call_url c)]).
Proof.
  destruct c; cbn [Api.perform];
    unfold Api.fetchByTitle, Api.fetchById, Api.searchByTitle, bind;
    rewrite executeRequest_once; cbn [call_url call_apiKey call_params];
    (destruct (executeRequest_result _) as [body | e]; [| reflexivity]);
    unfold classify, raise, ret;
    repeat match goal with |- context [if ?b then _ else _] => destruct b end;
    reflexivity.
Qed.

(** A body that passes [isApiError] is an object, hence not [null]. *)
Lemma isApiError_not_null (body : JsValue) :
  isApiError body = true -> loosely_null body = false.
Proof.
  destruct body; intros Hguard; try reflexivity;
    vm_compute in Hguard; discriminate.
Qed.

(** The failure guard on a plain object, by its own properties. *)
Lemma isApiError_object (o : gmap string JsValue) (X : string) :
  o !! "Response"%string = Some (JString "False") ->
  o !! "Error"%string = Some (JString X) ->
  isApiError (JObject o) = true /\ Error_of (JObject o) = X.
Proof.
  intros HR HE. unfold isApiError, Error_of, get, get_property.
  rewrite HR, HE. split; reflexivity.
Qed.

(** X4. The two success guards ask for [Response === 'True'], the failure
    guard for [Response === 'False']: no body passes the failure guard and
    a success guard. *)
Theorem guards_exclusive (body : JsValue) :
  isApiError body && (isDetailResult body || isSearchResult body) = false.
Proof.
  unfold isApiError, isDetailResult, isSearchResult.
  destruct (negb _ || _); [reflexivity |].
  destruct (get body "Response") as [| | | | s | | |]; try reflexivity.
  cbn [strict_eq_string].
  destruct (bool_decide_reflect (s = "False"%string)) as [-> |];
    [| reflexivity].
  replace (bool_decide ("False"%string = "True"%string)) with false
    by reflexivity.
  cbn. apply andb_false_r.
Qed.

(** C1. A response whose status is 400 or more makes each of the three
    operations throw an error of kind [http] that carries the status in
    [httpStatus] and names it in its message, whatever the body is (the
    body is never read, so a failure-shaped body changes nothing). *)
Theorem http_status_error (c : ClientCall) (t : Trace)
    (response : RequestUrlResponse) :
  requestUrl t (request_for (call_url c)) = Resolves response ->
  (400 <= status response)%Z ->
  perform c t =
    (Throws {| name := "OmdbError"; kind := http;
               message := "OMDb returned HTTP " +:+ Number_toString (status response);
               httpStatus := Some (status response);
               apiMessage := None |},
     t ++ [request_for (call_url c)]).
Proof.
  intros Hres Hge. rewrite perform_unfold, Hres. cbn.
  apply Z.leb_le in Hge. rewrite Hge. reflexivity.
Qed.

(** C2. A body that is an object with [Response] equal to ["False"] and a
    string [Error] field [X], under a status below 400, makes each operation
    throw an error of kind [api] whose message and whose [apiMessage] are
    [X] itself. *)
Theorem api_error_verbatim (c : ClientCall) (t : Trace)
    (response : RequestUrlResponse) (o : gmap string JsValue) (X : string) :
  requestUrl t (request_for (call_url c)) = Resolves response ->
  (status response < 400)%Z ->
  json response = JObject o ->
  o !! "Response"%string = Some (JString "False") ->
  o !! "Error"%string = Some (JString X) ->
  perform c t =
    (Throws {| name := "OmdbError"; kind := api; message := X;
               httpStatus := None; apiMessage := Some X |},
     t ++ [request_for (call_url c)]).
Proof.
  intros Hres Hlt Hbody HR HE. rewrite perform_unfold, Hres. cbn.
  apply Z.leb_gt in Hlt. rewrite Hlt, Hbody. cbn.
  destruct (isApiError_object o X HR HE) as [Hguard Herr].
  unfold classify. rewrite Hguard, Herr. reflexivity.
Qed.

(** C3. The failure guard is consulted before the success guard of the
    operation: a body with the failure shape makes every operation throw
    the [api] error built from its [Error] field, whatever the remaining
    fields are, also when they are the ones a success guard looks for; the
    body is never returned. *)
Theorem failure_shape_first (c : ClientCall) (t : Trace)
    (response : RequestUrlResponse) :
  requestUrl t (request_for (call_url c)) = Resolves response ->
  (status response < 400)%Z ->
  isApiError (json response) = true ->
  perform c t =
    (Throws {| name := "OmdbError"; kind := api; message := Error_of (json response);
               httpStatus := None;
               apiMessage := Some (Error_of (json response)) |},
     t ++ [request_for (call_url c)])
  /\ forall v t', perform c t <> (Returns v, t').
Proof.
  intros Hres Hlt Hguard.
  assert (perform c t =
    (Throws {| name := "OmdbError"; kind := api; message := Error_of (json response);
               httpStatus := None;
               apiMessage := Some (Error_of (json response)) |},
     t ++ [request_for (call_url c)])) as Heq.
  { rewrite perform_unfold, Hres. cbn.
    apply Z.leb_gt in Hlt. rewrite Hlt.
    rewrite (isApiError_not_null _ Hguard).
    unfold classify. rewrite Hguard. reflexivity. }
  split; [exact Heq |]. intros v t'. rewrite Heq. discriminate.
Qed.

(** C7. The success guard depends on the operation.  A body with
    [Response] equal to ["True"], an array [Search] and no string [imdbID]
    is returned as it is by [searchByTitle]; [fetchByTitle] and [fetchById]
    reject the same body with the [parse] error of the fixed message. *)
Theorem success_shape_per_operation (c : ClientCall) (t : Trace)
    (response : RequestUrlResponse) (o : gmap string JsValue)
    (entries : list JsValue) :
  requestUrl t (request_for (call_url c)) = Resolves response ->
  (status response < 400)%Z ->
  json response = JObject o ->
  o !! "Response"%string = Some (JString "True") ->
  o !! "Search"%string = Some (JArray entries) ->
  (forall s, o !! "imdbID"%string <> Some (JString s)) ->
  perform c t =
    (match c with
     | CallSearchByTitle _ _ _ => Returns (JObject o)
     | CallFetchByTitle _ _ _ | CallFetchById _ _ _ =>
         Throws {| name := "OmdbError"; kind := parse;
                   message := "Unexpected response shape from OMDb";
                   httpStatus := None; apiMessage := None |}
     end,
     t ++ [request_for (call_url c)]).
Proof.
  intros Hres Hlt Hbody HR HS Hid. rewrite perform_unfold, Hres. cbn.
  apply Z.leb_gt in Hlt. rewrite Hlt, Hbody. cbn.
  assert (isApiError (JObject o) = false) as Hfail.
  { unfold isApiError, get, get_property. rewrite HR. reflexivity. }
  assert (isSearchResult (JObject o) = true) as Hsearch.
  { unfold isSearchResult, get, get_property. rewrite HR, HS. reflexivity. }
  assert (isDetailResult (JObject o) = false) as Hdetail.
  { unfold isDetailResult, get, get_property. rewrite HR. cbn.
    destruct (o !! "imdbID"%string) as [[| | | | s | | |] |] eqn:E;
      try reflexivity.
    exfalso. exact (Hid s eq_refl). }
  unfold classify. rewrite Hfail.
  destruct c; rewrite ?Hsearch, ?Hdetail; reflexivity.
Qed.

(** C8, as amended.  Whatever the transport rejects with, each operation
    throws an error of kind [network] and the transport has been called
    exactly once: nothing is retried.  The message of the error is the
    message of the thrown value when that is an [Error]. *)
Theorem network_error_message (c : ClientCall) (t : Trace) (err : Thrown) :
  requestUrl t (request_for (call_url c)) = Rejects err ->
  exists e,
    perform c t = (Throws e, t ++ [request_for (call_url c)]) /\
    kind e = network /\ httpStatus e = None /\ apiMessage e = None /\
    forall m, err = ThrownError m -> message e = m.
Proof.
  intros Hrej. rewrite perform_unfold, Hrej.
  destruct err as [m | v]; cbn; eexists; (split; [reflexivity |]);
    repeat (split; [reflexivity |]); intros m' Heq.
  - inversion Heq; subst. reflexivity.
  - discriminate.
Qed.

(** C10. When the transport rejects with a value that is not an [Error],
    each operation throws an error of kind [network] with the fixed message
    ["Network error"]; nothing of the thrown value enters the message. *)
Theorem network_error_fixed_message (c : ClientCall) (t : Trace) (v : JsValue) :
  requestUrl t (request_for (call_url c)) = Rejects (ThrownValue v) ->
  perform c t =
    (Throws {| name := "OmdbError"; kind := network; message := "Network error";
               httpStatus := None; apiMessage := None |},
     t ++ [request_for (call_url c)]).
Proof.
  intros Hrej. rewrite perform_unfold, Hrej. reflexivity.
Qed.

(** C9. Every error an operation throws has one kind, and its optional
    fields follow the kind: [httpStatus] is set exactly for [http] and
    [apiMessage] exactly for [api]. *)
Theorem error_fields_follow_kind (c : ClientCall) (t t' : Trace) (e : OmdbError) :
  perform c t = (Throws e, t') ->
  match kind e with
  | network | parse => httpStatus e = None /\ apiMessage e = None
  | http => is_Some (httpStatus e) /\ apiMessage e = None
  | api => httpStatus e = None /\ is_Some (apiMessage e)
  end.
Proof.
  rewrite perform_unfold. intros Heq.
  apply (f_equal fst) in Heq. cbn [fst] in Heq.
  destruct (requestUrl t (request_for (call_url c))) as [response | [m | v]];
    cbn in Heq.
  - destruct (400 <=? status response)%Z.
    { inversion Heq; subst; cbn. split; [eexists; reflexivity | reflexivity]. }
    destruct (loosely_null (json response)).
    { inversion Heq; subst; cbn. split; reflexivity. }
    unfold classify in Heq.
    repeat match type of Heq with
           | context [if ?b then _ else _] => destruct b
           end;
      inversion Heq; subst; cbn;
      (split; [try reflexivity | try reflexivity]); eexists; reflexivity.
  - inversion Heq; subst; cbn. split; reflexivity.
  - inversion Heq; subst; cbn. split; reflexivity.
Qed.

(** X1. An operation hands exactly one request to the transport, whatever
    the outcome: the trace grows by the request for the URL of the call. *)
Theorem one_request_per_call (c : ClientCall) (t : Trace) :
  snd (perform c t) = t ++ [request_for (call_url c)].
Proof. rewrite perform_unfold. reflexivity. Qed.

(** X2. A response under status 400 whose parsed body is [null] or
    [undefined] makes each operation throw the [parse] error of
    [executeRequest]. *)
Theorem missing_body_parse_error (c : ClientCall) (t : Trace)
    (response : RequestUrlResponse) :
  requestUrl t (request_for (call_url c)) = Resolves response ->
  (status response < 400)%Z ->
  loosely_null (json response) = true ->
  perform c t =
    (Throws {| name := "OmdbError"; kind := parse;
               message := "OMDb response was not valid JSON";
               httpStatus := None; apiMessage := None |},
     t ++ [request_for (call_url c)]).
Proof.
  intros Hres Hlt Hnull. rewrite perform_unfold, Hres. cbn.
  apply Z.leb_gt in Hlt. rewrite Hlt, Hnull. reflexivity.
Qed.

(** X3. A body with [Response] equal to ["True"] and a string [imdbID] is
    returned as it is by [fetchByTitle] and by [fetchById]. *)
Theorem detail_result_returned (apiKey term : string)
    (by_title : OmdbFetchByTitleOptions) (by_id : OmdbCommonOptions)
    (t : Trace) (response : RequestUrlResponse) (o : gmap string JsValue)
    (id : string) :
  (status response < 400)%Z ->
  json response = JObject o ->
  o !! "Response"%string = Some (JString "True") ->
  o !! "imdbID"%string = Some (JString id) ->
  (requestUrl t (request_for (call_url (CallFetchByTitle apiKey term by_title)))
     = Resolves response ->
   perform (CallFetchByTitle apiKey term by_title) t =
     (Returns (JObject o),
      t ++ [request_for (call_url (CallFetchByTitle apiKey term by_title))])) /\
  (requestUrl t (request_for (call_url (CallFetchById apiKey term by_id)))
     = Resolves response ->
   perform (CallFetchById apiKey term by_id) t =
     (Returns (JObject o),
      t ++ [request_for (call_url (CallFetchById apiKey term by_id))])).
Proof.
  intros Hlt Hbody HR Hid. apply Z.leb_gt in Hlt.
  assert (classify (CallFetchByTitle apiKey term by_title) (JObject o)
          = Returns (JObject o)) as Hclass.
  { unfold classify, isApiError, isDetailResult, get, get_property.
    rewrite HR, Hid. reflexivity. }
  split; intros Hres; rewrite perform_unfold, Hres;
    cbn [executeRequest_result]; rewrite Hlt, Hbody;
    cbn [loosely_null]; f_equal; exact Hclass.
Qed.

End Transport.

(** *** The theorems at concrete inputs *)

Import Examples.

(** A 404 that carries a failure-shaped body. *)
Lemma http_status_error_witness :
  perform form_urlencode (answers 404 not_found) call_title [] =
    (Throws {| name := "OmdbError"; kind := http; message := "OMDb returned HTTP 404";
               httpStatus := Some 404%Z; apiMessage := None |},
     [ {| url := "https://www.omdbapi.com/?apikey=k&r=json&t=Good+Will+Hunting&y=1997";
          throw := false |} ]).
Proof.
  apply (http_status_error form_urlencode (answers 404 not_found) call_title []
           {| status := 404; json := not_found |}).
  - reflexivity.
  - cbn. lia.
Defined.

(** The failure body of OMDb under status 200, for a search. *)
Lemma api_error_verbatim_witness :
  perform form_urlencode (answers 200 not_found) call_search [] =
    (Throws {| name := "OmdbError"; kind := api; message := "Movie not found!";
               httpStatus := None; apiMessage := Some "Movie not found!"%string |},
     [ {| url := "https://www.omdbapi.com/?apikey=k&r=json&s=A&type=movie";
          throw := false |} ]).
Proof.
  apply (api_error_verbatim form_urlencode (answers 200 not_found) call_search []
           {| status := 200; json := not_found |}
           {[ "Response"%string := JString "False";
              "Error"%string := JString "Movie not found!" ]}).
  - reflexivity.
  - cbn. lia.
  - reflexivity.
  - reflexivity.
  - reflexivity.
Defined.

(** A failure body that also has a string [imdbID] and an array [Search]. *)
Lemma failure_shape_first_witness :
  perform form_urlencode (answers 200 failure_with_success_fields) call_title [] =
    (Throws {| name := "OmdbError"; kind := api; message := "X";
               httpStatus := None; apiMessage := Some "X"%string |},
     [ {| url := "https://www.omdbapi.com/?apikey=k&r=json&t=Good+Will+Hunting&y=1997";
          throw := false |} ])
  /\ forall v t',
       perform form_urlencode (answers 200 failure_with_success_fields) call_title []
       <> (Returns v, t').
Proof.
  apply (failure_shape_first form_urlencode (answers 200 failure_with_success_fields)
           call_title [] {| status := 200; json := failure_with_success_fields |}).
  - reflexivity.
  - cbn. lia.
  - reflexivity.
Defined.

(** The search scenario of the specification, for a search and for a detail
    call. *)
Lemma success_shape_per_operation_witness :
  perform form_urlencode (answers 200 (JObject search_fields)) call_search [] =
    (Returns (JObject search_fields),
     [ {| url := "https://www.omdbapi.com/?apikey=k&r=json&s=A&type=movie";
          throw := false |} ])
  /\ perform form_urlencode (answers 200 (JObject search_fields)) call_title [] =
    (Throws {| name := "OmdbError"; kind := parse; message := "Unexpected response shape from OMDb";
               httpStatus := None; apiMessage := None |},
     [ {| url := "https://www.omdbapi.com/?apikey=k&r=json&t=Good+Will+Hunting&y=1997";
          throw := false |} ]).
Proof.
  split.
  - apply (success_shape_per_operation form_urlencode (answers 200 (JObject search_fields))
             call_search [] {| status := 200; json := JObject search_fields |}
             search_fields [search_entry]);
      [reflexivity | cbn; lia | reflexivity | reflexivity | reflexivity
      | intros s; vm_compute; discriminate].
  - apply (success_shape_per_operation form_urlencode (answers 200 (JObject search_fields))
             call_title [] {| status := 200; json := JObject search_fields |}
             search_fields [search_entry]);
      [reflexivity | cbn; lia | reflexivity | reflexivity | reflexivity
      | intros s; vm_compute; discriminate].
Defined.

(** A refused connection. *)
Lemma network_error_message_witness :
  exists e,
    perform form_urlencode (rejects (ThrownError "net::ERR_CONNECTION_REFUSED"))
      call_title [] =
      (Throws e,
       [] ++ [request_for form_urlencode (call_url call_title)]) /\
    kind e = network /\ httpStatus e = None /\ apiMessage e = None /\
    forall m, ThrownError "net::ERR_CONNECTION_REFUSED" = ThrownError m ->
      message e = m.
Proof.
  apply (network_error_message form_urlencode
           (rejects (ThrownError "net::ERR_CONNECTION_REFUSED")) call_title []
           (ThrownError "net::ERR_CONNECTION_REFUSED")).
  reflexivity.
Defined.

(** The same call, evaluated. *)
Example network_error_message_evaluated :
  perform form_urlencode (rejects (ThrownError "net::ERR_CONNECTION_REFUSED"))
    call_title [] =
    (Throws {| name := "OmdbError"; kind := network;
               message := "net::ERR_CONNECTION_REFUSED";
               httpStatus := None; apiMessage := None |},
     [ {| url := "https://www.omdbapi.com/?apikey=k&r=json&t=Good+Will+Hunting&y=1997";
          throw := false |} ]).
Proof. vm_compute. reflexivity. Qed.

(** C8, as stated, fails: the message text of a thrown value that is no
    [Error] does not reach the error the operation throws. *)
Lemma thrown_message_not_taken :
  get thrown_object "message" = JString "socket hang up" /\
  perform form_urlencode (rejects (ThrownValue thrown_object)) call_title [] =
    (Throws {| name := "OmdbError"; kind := network; message := "Network error";
               httpStatus := None; apiMessage := None |},
     [ {| url := "https://www.omdbapi.com/?apikey=k&r=json&t=Good+Will+Hunting&y=1997";
          throw := false |} ]) /\
  "Network error"%string <> "socket hang up"%string.
Proof.
  split; [vm_compute; reflexivity |].
  split; [vm_compute; reflexivity | discriminate].
Qed.

(** A thrown string. *)
Lemma network_error_fixed_message_witness :
  perform form_urlencode (rejects (ThrownValue (JString "boom"))) call_title [] =
    (Throws {| name := "OmdbError"; kind := network; message := "Network error";
               httpStatus := None; apiMessage := None |},
     [ {| url := "https://www.omdbapi.com/?apikey=k&r=json&t=Good+Will+Hunting&y=1997";
          throw := false |} ]).
Proof.
  apply (network_error_fixed_message form_urlencode
           (rejects (ThrownValue (JString "boom"))) call_title []
           (JString "boom")).
  reflexivity.
Defined.

(** A response without a parsed body. *)
Lemma missing_body_parse_error_witness :
  perform form_urlencode (answers 200 JNull) call_title [] =
    (Throws {| name := "OmdbError"; kind := parse;
               message := "OMDb response was not valid JSON";
               httpStatus := None; apiMessage := None |},
     [ {| url := "https://www.omdbapi.com/?apikey=k&r=json&t=Good+Will+Hunting&y=1997";
          throw := false |} ]).
Proof.
  apply (missing_body_parse_error form_urlencode (answers 200 JNull) call_title []
           {| status := 200; json := JNull |}).
  - reflexivity.
  - cbn. lia.
  - reflexivity.
Defined.

(** The detail scenario of the specification. *)
Lemma detail_result_returned_witness :
  perform form_urlencode (answers 200 (JObject good_will_hunting)) call_title [] =
    (Returns (JObject good_will_hunting),
     [ {| url := "https://www.omdbapi.com/?apikey=k&r=json&t=Good+Will+Hunting&y=1997";
          throw := false |} ]).
Proof.
  apply (proj1 (detail_result_returned form_urlencode
                  (answers 200 (JObject good_will_hunting))
                  "k" "Good Will Hunting" year_1997 no_options []
                  {| status := 200; json := JObject good_will_hunting |}
                  good_will_hunting "tt1285016"
                  ltac:(cbn; lia) eq_refl eq_refl eq_refl)).
  reflexivity.
Defined.

(** The error of a 404 response. *)
Lemma error_fields_follow_kind_witness :
  is_Some (httpStatus http_404) /\ apiMessage http_404 = None.
Proof.
  exact (error_fields_follow_kind form_urlencode (answers 404 not_found)
           call_title [] _ http_404 eq_refl).
Defined.

(** *** Further properties of the client *)

(** **** [buildUrl] on any parameter map *)

Lemma URLSearchParams_set_keys name value l key :
  key ∈ (URLSearchParams_set name value l).*1 <-> key = name \/ key ∈ l.*1.
Proof.
  induction l as [| [n v] l IH]; cbn.
  - rewrite list_elem_of_singleton. split; [auto |].
    intros [-> | Hin]; [reflexivity | inversion Hin].
  - destruct (bool_decide_reflect (n = name)) as [-> | Hne]; cbn.
    + rewrite !elem_of_cons. split.
      * intros [-> | Hin]; [tauto |]. right. right.
        apply list_elem_of_fmap in Hin as [p [-> Hp]].
        apply list_elem_of_filter in Hp as [_ Hp].
        apply list_elem_of_fmap. eauto.
      * intros [-> | [-> | Hin]]; [tauto | tauto |].
        destruct (decide (key = name)) as [-> | Hne]; [tauto |]. right.
        apply list_elem_of_fmap in Hin as [p [-> Hp]].
        apply list_elem_of_fmap. exists p. split; [reflexivity |].
        apply list_elem_of_filter. auto.
    + rewrite !elem_of_cons, IH. tauto.
Qed.

Lemma URLSearchParams_set_NoDup name value l :
  NoDup l.*1 -> NoDup (URLSearchParams_set name value l).*1.
Proof.
  induction l as [| [n v] l IH]; cbn; intros Hnd.
  - apply NoDup_singleton.
  - apply NoDup_cons in Hnd as [Hn Hnd].
    destruct (bool_decide_reflect (n = name)) as [-> | Hne]; cbn.
    + apply NoDup_cons. split.
      * intros Hin. apply list_elem_of_fmap in Hin as [p [Hp1 Hp]].
        apply list_elem_of_filter in Hp as [Hp _]. congruence.
      * eapply sublist_NoDup; [exact Hnd | apply fmap_sublist, sublist_filter].
    + apply NoDup_cons. split; [| auto].
      rewrite URLSearchParams_set_keys. intros [-> | Hin]; contradiction.
Qed.

(** The pairs of a query without repeated key after [set]: the pair set,
    and the pairs of the other keys. *)
Lemma URLSearchParams_set_pairs name value l key s :
  NoDup l.*1 ->
  (key, s) ∈ URLSearchParams_set name value l <->
  (key = name /\ s = value) \/ (key <> name /\ (key, s) ∈ l).
Proof.
  induction l as [| [n v] l IH]; cbn; intros Hnd.
  - rewrite list_elem_of_singleton, elem_of_nil. split.
    + intros Heq. inversion Heq. auto.
    + intros [[-> ->] | [_ []]]. reflexivity.
  - apply NoDup_cons in Hnd as [Hn Hnd].
    destruct (bool_decide_reflect (n = name)) as [-> | Hne].
    + rewrite !elem_of_cons, list_elem_of_filter. cbn. split.
      * intros [Heq | [Hk Hin]]; [inversion Heq; auto | auto].
      * intros [[-> ->] | [Hk [Heq | Hin]]]; [auto | | auto].
        inversion Heq; subst. contradiction.
    + rewrite !elem_of_cons, (IH Hnd). split.
      * intros [Heq | [[-> ->] | [Hk Hin]]]; [| auto | auto].
        inversion Heq; subst. auto.
      * intros [[-> ->] | [Hk [Heq | Hin]]]; auto.
Qed.

Lemma set_defined_NoDup params u :
  NoDup (searchParams u).*1 -> NoDup (searchParams (set_defined params u)).*1.
Proof.
  revert u. induction params as [| [k [v |]] params IH]; intros u Hnd; cbn;
    [assumption | | auto].
  apply IH. cbn. apply URLSearchParams_set_NoDup, Hnd.
Qed.

Lemma base_query_NoDup apiKey :
  NoDup (searchParams (set_param "r" "json"
           (set_param "apikey" apiKey (new_URL OMDB_BASE_URL)))).*1.
Proof.
  unfold set_param, new_URL. cbn [searchParams].
  apply URLSearchParams_set_NoDup, URLSearchParams_set_NoDup.
  apply NoDup_nil. exact I.
Qed.

Lemma base_query apiKey :
  searchParams (set_param "r" "json"
                  (set_param "apikey" apiKey (new_URL OMDB_BASE_URL)))
  = [("apikey"%string, apiKey); ("r"%string, "json"%string)].
Proof. reflexivity. Qed.

(** X5. Whatever the parameter map holds, also a key twice or one of the
    names [apikey] and [r], no key occurs twice in the query [buildUrl]
    builds. *)
Theorem buildUrl_keys_unique (apiKey : string) (params : Params) :
  NoDup (searchParams (buildUrl apiKey params)).*1.
Proof.
  unfold buildUrl. cbv zeta. apply set_defined_NoDup, base_query_NoDup.
Qed.

(** The last defined entry of a key decides its value. *)
Lemma set_defined_last before key v after u s :
  NoDup (searchParams u).*1 ->
  (forall v', (key, Some v') ∉ after) ->
  (key, s) ∈ searchParams (set_defined (before ++ (key, Some v) :: after) u)
  <-> s = String_of v.
Proof.
  revert u. induction before as [| [k [w |]] before IH]; intros u Hnd Hlast; cbn.
  - (* the entry itself is set now; no later entry touches the key *)
    assert (forall u', NoDup (searchParams u').*1 ->
              ((key, s) ∈ searchParams (set_defined after u')
               <-> (key, s) ∈ searchParams u')) as Hkeep.
    { clear Hnd u. induction after as [| [k [w |]] after IH]; intros u' Hnd';
        cbn; [tauto | |].
      - rewrite IH.
        + cbn. rewrite URLSearchParams_set_pairs by assumption.
          split.
          * intros [[-> ->] | [_ Hin]]; [| assumption].
            exfalso. apply (Hlast w). left.
          * intros Hin. right. split; [| assumption].
            intros ->. apply (Hlast w). left.
        + intros v' Hin. apply (Hlast v'). right. assumption.
        + cbn. apply URLSearchParams_set_NoDup, Hnd'.
      - apply IH; [| assumption].
        intros v' Hin. apply (Hlast v'). right. assumption. }
    rewrite Hkeep by (cbn; apply URLSearchParams_set_NoDup, Hnd).
    cbn. rewrite URLSearchParams_set_pairs by assumption.
    split; [intros [[_ ->] | [Hne _]]; [reflexivity | contradiction] | auto].
  - apply IH; [| assumption]. cbn. apply URLSearchParams_set_NoDup, Hnd.
  - apply IH; assumption.
Qed.

(** A key without a defined entry keeps the value it had. *)
Lemma set_defined_other params u key s :
  NoDup (searchParams u).*1 ->
  (forall v, (key, Some v) ∉ params) ->
  (key, s) ∈ searchParams (set_defined params u) <-> (key, s) ∈ searchParams u.
Proof.
  revert u. induction params as [| [k [w |]] params IH]; intros u Hnd Hnone;
    cbn; [tauto | |].
  - rewrite IH.
    + cbn. rewrite URLSearchParams_set_pairs by assumption.
      split.
      * intros [[-> ->] | [_ Hin]]; [| assumption].
        exfalso. apply (Hnone w). left.
      * intros Hin. right. split; [| assumption].
        intros ->. apply (Hnone w). left.
    + cbn. apply URLSearchParams_set_NoDup, Hnd.
    + intros v Hin. apply (Hnone v). right. assumption.
  - apply IH; [assumption |].
    intros v Hin. apply (Hnone v). right. assumption.
Qed.

(** X6. In the query of [buildUrl] a key that the parameter map defines has
    the string form of its last defined entry, also when the key is
    [apikey] or [r]; without a defined entry, [apikey] has the API key and
    [r] has ["json"]. *)
Theorem buildUrl_last_value_wins (apiKey : string) :
  (forall before key v after,
     (forall v', (key, Some v') ∉ after) ->
     forall s, (key, s) ∈ searchParams (buildUrl apiKey (before ++ (key, Some v) :: after))
               <-> s = String_of v) /\
  (forall params,
     (forall v, ("apikey"%string, Some v) ∉ params) ->
     forall s, ("apikey"%string, s) ∈ searchParams (buildUrl apiKey params)
               <-> s = apiKey) /\
  (forall params,
     (forall v, ("r"%string, Some v) ∉ params) ->
     forall s, ("r"%string, s) ∈ searchParams (buildUrl apiKey params)
               <-> s = "json"%string).
Proof.
  pose proof (base_query_NoDup apiKey) as Hnd. unfold buildUrl. cbv zeta.
  split; [| split].
  - intros before key v after Hlast s. apply set_defined_last; assumption.
  - intros params Hnone s. rewrite set_defined_other by assumption.
    rewrite base_query, !elem_of_cons, elem_of_nil. split.
    + intros [Heq | [Heq | []]]; inversion Heq; reflexivity.
    + intros ->. auto.
  - intros params Hnone s. rewrite set_defined_other by assumption.
    rewrite base_query, !elem_of_cons, elem_of_nil. split.
    + intros [Heq | [Heq | []]]; inversion Heq; reflexivity.
    + intros ->. auto.
Qed.

(** **** The request and its outcome *)



(** A property of a parsed object that reads as a string or as an array is
    an own property: nothing inherited is one. *)
Lemma get_property_own (o : gmap string JsValue) (key : string) (v : JsValue) :
  get_property o key = v ->
  match v with JString _ | JArray _ => True | _ => False end ->
  o !! key = Some v.
Proof.
  unfold get_property, inherited. destruct (o !! key) as [w |].
  - intros ->. reflexivity.
  - repeat destruct (bool_decide _); intros <-; contradiction.
Qed.

Section Outcome.

Variable urlencode : string -> string.
Variable requestUrl : Trace -> RequestUrlParam -> RequestOutcome.

Local Abbreviation request_for := (Api.request_for urlencode).
Local Abbreviation perform := (Api.perform urlencode requestUrl).



(** X8. What an operation returns is the body of a response under status
    400, unchanged, and it is an object with [Response] equal to ["True"]
    and, for the detail operations, a string [imdbID], for the search an
    array [Search]. *)
Theorem returned_value_validated (c : ClientCall) (t t' : Trace) (v : JsValue) :
  perform c t = (Returns v, t') ->
  exists response o,
    requestUrl t (request_for (call_url c)) = Resolves response /\
    (status response < 400)%Z /\
    json response = v /\ v = JObject o /\
    o !! "Response"%string = Some (JString "True") /\
    match c with
    | CallSearchByTitle _ _ _ => exists entries, o !! "Search"%string = Some (JArray entries)
    | _ => exists id, o !! "imdbID"%string = Some (JString id)
    end.
Proof.
  rewrite perform_unfold. intros Heq. apply (f_equal fst) in Heq. cbn [fst] in Heq.
  destruct (requestUrl t (request_for (call_url c))) as [response | [m | e]];
    cbn in Heq; try discriminate.
  destruct (400 <=? status response)%Z eqn:Hstatus; [discriminate |].
  destruct (loosely_null (json response)); [discriminate |].
  unfold classify in Heq.
  destruct (isApiError (json response)); [discriminate |].
  assert (json response = v /\
          (match c with
           | CallSearchByTitle _ _ _ => isSearchResult v
           | _ => isDetailResult v
           end) = true) as [Hv Hguard].
  { destruct c; match type of Heq with
                | context [if ?b then _ else _] => destruct b eqn:Hb
                end; inversion Heq; subst; auto. }
  apply Z.leb_gt in Hstatus.
  assert (exists o, v = JObject o /\
            strict_eq_string (get_property o "Response") "True" = true /\
            match c with
            | CallSearchByTitle _ _ _ => Array_isArray (get_property o "Search") = true
            | _ => typeof (get_property o "imdbID") = TString
            end) as (o & -> & HR & Hfield).
  { destruct v as [| | | | | | o |];
      try (destruct c; cbn in Hguard; discriminate).
    exists o. split; [reflexivity |].
    destruct c; unfold isDetailResult, isSearchResult in Hguard; cbn in Hguard;
      apply andb_true_iff in Hguard as [HR Hf]; (split; [exact HR |]);
      rewrite ?bool_decide_eq_true in Hf; exact Hf. }
  exists response, o. repeat (split; [assumption || reflexivity |]).
  split.
  - destruct (get_property o "Response") as [| | | | s | | |] eqn:E;
      try discriminate.
    cbn in HR. apply bool_decide_eq_true in HR. subst s.
    apply (get_property_own _ _ _ E). exact I.
  - destruct c.
    + destruct (get_property o "imdbID") as [| | | | s | | |] eqn:E;
        try discriminate.
      exists s. apply (get_property_own _ _ _ E). exact I.
    + destruct (get_property o "imdbID") as [| | | | s | | |] eqn:E;
        try discriminate.
      exists s. apply (get_property_own _ _ _ E). exact I.
    + destruct (get_property o "Search") as [| | | | | l | |] eqn:E;
        try discriminate.
      exists l. apply (get_property_own _ _ _ E). exact I.
Qed.

(** X9. A body that is a boolean, a number, a string or an array, under a
    status below 400, makes each operation throw the [parse] error of the
    unexpected shape: an array is an object for [typeof], and has none of
    the properties the guards read. *)
Theorem body_without_fields_rejected (c : ClientCall) (t : Trace)
    (response : RequestUrlResponse) :
  requestUrl t (request_for (call_url c)) = Resolves response ->
  (status response < 400)%Z ->
  match json response with
  | JBoolean _ | JNumber _ | JString _ | JArray _ => True
  | _ => False
  end ->
  perform c t =
    (Throws {| name := "OmdbError"; kind := parse;
               message := "Unexpected response shape from OMDb";
               httpStatus := None; apiMessage := None |},
     t ++ [request_for (call_url c)]).
Proof.
  intros Hres Hlt Hbody. rewrite perform_unfold, Hres. cbn [executeRequest_result].
  apply Z.leb_gt in Hlt. rewrite Hlt.
  destruct (json response); try contradiction; destruct c; reflexivity.
Qed.

(** X10. An object that has no string [Error] and whose [Response] is not
    the string ["True"], under a status below 400, makes each operation
    throw the [parse] error of the unexpected shape: a failure that names no
    error text is not reported as an [api] error. *)
Theorem object_without_shape_rejected (c : ClientCall) (t : Trace)
    (response : RequestUrlResponse) (o : gmap string JsValue) :
  requestUrl t (request_for (call_url c)) = Resolves response ->
  (status response < 400)%Z ->
  json response = JObject o ->
  (forall s, o !! "Error"%string <> Some (JString s)) ->
  o !! "Response"%string <> Some (JString "True") ->
  perform c t =
    (Throws {| name := "OmdbError"; kind := parse;
               message := "Unexpected response shape from OMDb";
               httpStatus := None; apiMessage := None |},
     t ++ [request_for (call_url c)]).
Proof.
  intros Hres Hlt Hbody Herr Hresp. rewrite perform_unfold, Hres.
  cbn [executeRequest_result]. apply Z.leb_gt in Hlt. rewrite Hlt, Hbody.
  cbn [loosely_null].
  assert (typeof (get_property o "Error") <> TString) as Hnostring.
  { intros Htype.
    destruct (get_property o "Error") as [| | | | s | | |] eqn:E; try discriminate.
    apply (Herr s). apply (get_property_own _ _ _ E). exact I. }
  assert (strict_eq_string (get_property o "Response") "True" = false) as Hnot.
  { destruct (get_property o "Response") as [| | | | s | | |] eqn:E;
      try reflexivity.
    cbn. apply bool_decide_eq_false. intros ->. apply Hresp.
    apply (get_property_own _ _ _ E). exact I. }
  assert (isApiError (JObject o) = false) as Hfail.
  { unfold isApiError. cbn [typeof is_null get].
    rewrite (bool_decide_eq_false_2 _ Hnostring). apply andb_false_r. }
  assert (isDetailResult (JObject o) = false) as Hdetail.
  { unfold isDetailResult. cbn [typeof is_null get]. rewrite Hnot. reflexivity. }
  assert (isSearchResult (JObject o) = false) as Hsearch.
  { unfold isSearchResult. cbn [typeof is_null get]. rewrite Hnot. reflexivity. }
  f_equal. unfold classify. rewrite Hfail.
  destruct c; rewrite ?Hdetail, ?Hsearch; reflexivity.
Qed.

End Outcome.

(** **** Instances *)

(** A parameter map that names [apikey] itself replaces the key of the
    client. *)
Lemma buildUrl_last_value_wins_witness :
  ("apikey"%string, "other"%string) ∈
    searchParams (buildUrl "k" ([("t"%string, Some (PString "A"))] ++
                                ("apikey"%string, Some (PString "other")) :: [])).
Proof.
  apply (proj1 (buildUrl_last_value_wins "k")
           [("t"%string, Some (PString "A"))] "apikey"%string (PString "other") []).
  - intros v' Hin. inversion Hin.
  - reflexivity.
Defined.

(** A detail result is returned as it came. *)
Lemma returned_value_validated_witness :
  exists response o,
    answers 200 (JObject good_will_hunting) []
      (request_for form_urlencode (call_url call_title)) = Resolves response /\
    (status response < 400)%Z /\
    json response = JObject good_will_hunting /\
    JObject good_will_hunting = JObject o /\
    o !! "Response"%string = Some (JString "True") /\
    exists id, o !! "imdbID"%string = Some (JString id).
Proof.
  apply (returned_value_validated form_urlencode
           (answers 200 (JObject good_will_hunting)) call_title []
           [request_for form_urlencode (call_url call_title)]
           (JObject good_will_hunting)).
  vm_compute. reflexivity.
Defined.

(** An array as the body. *)
Lemma body_without_fields_rejected_witness :
  perform form_urlencode (answers 200 (JArray [search_entry])) call_search [] =
    (Throws {| name := "OmdbError"; kind := parse;
               message := "Unexpected response shape from OMDb";
               httpStatus := None; apiMessage := None |},
     [] ++ [request_for form_urlencode (call_url call_search)]).
Proof.
  apply (body_without_fields_rejected form_urlencode
           (answers 200 (JArray [search_entry])) call_search []
           {| status := 200; json := JArray [search_entry] |}).
  - reflexivity.
  - cbn. lia.
  - exact I.
Defined.

(** A failure that names no error text. *)
Lemma object_without_shape_rejected_witness :
  perform form_urlencode (answers 200 failure_without_text) call_title [] =
    (Throws {| name := "OmdbError"; kind := parse;
               message := "Unexpected response shape from OMDb";
               httpStatus := None; apiMessage := None |},
     [] ++ [request_for form_urlencode (call_url call_title)]).
Proof.
  apply (object_without_shape_rejected form_urlencode
           (answers 200 failure_without_text) call_title []
           {| status := 200; json := failure_without_text |}
           {[ "Response"%string := JString "False" ]}).
  - reflexivity.
  - cbn. lia.
  - reflexivity.
  - intros s. vm_compute. discriminate.
  - vm_compute. discriminate.
Defined.

End ApiProperties.

(* ===================================================================== *)
(** ** Properties of the templates *)
(* ===================================================================== *)

Module TemplateProperties.

Import Template Examples.

(** *** The expression at the head of a text *)

Lemma strip_literal_app (p rest : list ascii) :
  strip_literal p (p ++ rest) = Some rest.
Proof.
  induction p as [| c p IH]; cbn; [reflexivity |].
  rewrite bool_decide_eq_true_2 by reflexivity. exact IH.
Qed.

Lemma strip_literal_inv (p s rest : list ascii) :
  strip_literal p s = Some rest -> s = p ++ rest.
Proof.
  revert s. induction p as [| c p IH]; cbn; intros s Heq.
  - congruence.
  - destruct s as [| d s]; [discriminate |].
    destruct (bool_decide_reflect (c = d)) as [-> |]; [| discriminate].
    rewrite (IH _ Heq). reflexivity.
Qed.

Lemma word_run_app (w rest : list ascii) :
  Forall (fun c => is_word_char c = true) w ->
  match rest with [] => True | c :: _ => is_word_char c = false end ->
  word_run (w ++ rest) = (w, rest).
Proof.
  intros Hw Hrest. induction Hw as [| c w Hc Hw IH]; cbn.
  - destruct rest as [| c rest]; [reflexivity |]. cbn. rewrite Hrest. reflexivity.
  - rewrite Hc, IH. reflexivity.
Qed.

Lemma word_run_inv (s w rest : list ascii) :
  word_run s = (w, rest) ->
  s = w ++ rest /\ Forall (fun c => is_word_char c = true) w.
Proof.
  revert w rest. induction s as [| c s IH]; cbn; intros w rest Heq.
  - inversion Heq; subst. split; [reflexivity | constructor].
  - destruct (is_word_char c) eqn:Hc.
    + destruct (word_run s) as [w' rest'] eqn:Hrun.
      inversion Heq; subst. destruct (IH _ _ eq_refl) as [-> Hw].
      split; [reflexivity | constructor; assumption].
    + inversion Heq; subst. split; [reflexivity | constructor].
Qed.

(** The expression matches at the head of a text that starts with a
    placeholder around an identifier. *)
Lemma match_here_placeholder (key rest : list ascii) :
  identifier key -> match_here (placeholder key ++ rest) = Some (key, rest).
Proof.
  intros [Hne Hw]. unfold placeholder, match_here.
  rewrite <- !app_assoc, strip_literal_app.
  rewrite word_run_app; [| assumption | reflexivity].
  rewrite strip_literal_app. destruct key; [contradiction | reflexivity].
Qed.

(** It matches nowhere else. *)
Lemma match_here_inv (s key rest : list ascii) :
  match_here s = Some (key, rest) ->
  s = placeholder key ++ rest /\ identifier key.
Proof.
  unfold match_here.
  destruct (strip_literal OPEN s) as [s1 |] eqn:Hopen; [| discriminate].
  destruct (word_run s1) as [w s2] eqn:Hrun.
  destruct w as [| c w]; [discriminate |].
  destruct (strip_literal CLOSE s2) as [s3 |] eqn:Hclose; [| discriminate].
  intros Heq. inversion Heq; subst.
  apply strip_literal_inv in Hopen, Hclose.
  apply word_run_inv in Hrun as [Hs1 Hw]. subst.
  unfold placeholder. rewrite <- !app_assoc. split; [reflexivity |].
  split; [discriminate | assumption].
Qed.

Lemma match_here_app (s key rest more : list ascii) :
  match_here s = Some (key, rest) ->
  match_here (s ++ more) = Some (key, rest ++ more).
Proof.
  intros Hm. apply match_here_inv in Hm as [-> Hid].
  rewrite <- app_assoc. apply match_here_placeholder, Hid.
Qed.

(** *** The scan *)

Lemma placeholder_length (key : list ascii) :
  length (placeholder key) = 4 + length key.
Proof. unfold placeholder. rewrite !length_app. cbn. lia. Qed.

(** More fuel than the length of the text changes nothing. *)
Lemma scan_fuel (n : nat) (s : list ascii) :
  length s <= n -> scan n s = scan (length s) s.
Proof.
  revert s. induction (lt_wf n) as [n _ IH]. intros s Hlen.
  destruct s as [| c s]; [destruct n; reflexivity |].
  destruct n as [| n]; [cbn in Hlen; lia |].
  cbn [scan length].
  destruct (match_here (c :: s)) as [[key rest] |] eqn:Hm.
  - apply match_here_inv in Hm as [Heq _].
    assert (length rest < S (length s)) as Hshort.
    { change (S (length s)) with (length (c :: s)).
      rewrite Heq, length_app, placeholder_length. lia. }
    cbn in Hlen.
    rewrite (IH n) by lia. rewrite (IH (length s)) by lia. reflexivity.
  - cbn in Hlen. rewrite (IH n) by lia. reflexivity.
Qed.

Lemma pieces_nil : pieces [] = [].
Proof. reflexivity. Qed.

Lemma pieces_unmatched (c : ascii) (s : list ascii) :
  match_here (c :: s) = None -> pieces (c :: s) = Unmatched c :: pieces s.
Proof. unfold pieces. cbn [scan length]. intros ->. reflexivity. Qed.

Lemma pieces_matched (key rest : list ascii) :
  identifier key ->
  pieces (placeholder key ++ rest) = Matched key :: pieces rest.
Proof.
  intros Hid. unfold pieces.
  pose proof (match_here_placeholder key rest Hid) as Hm.
  destruct (placeholder key ++ rest) as [| c s] eqn:Heq.
  { unfold placeholder in Heq. discriminate. }
  cbn [scan length]. rewrite Hm. f_equal. apply scan_fuel.
  assert (length (c :: s) = 4 + length key + length rest) as Hlen.
  { rewrite <- Heq, length_app, placeholder_length. reflexivity. }
  cbn in Hlen. lia.
Qed.

(** Induction along the scan: the empty text, a placeholder in front, or
    one code unit at which no match starts. *)
Lemma scan_ind (P : list ascii -> Prop) :
  P [] ->
  (forall key rest, identifier key -> P rest -> P (placeholder key ++ rest)) ->
  (forall c s, match_here (c :: s) = None -> P s -> P (c :: s)) ->
  forall s, P s.
Proof.
  intros Hnil Hmatch Hskip s.
  remember (length s) as n eqn:Hn. revert s Hn.
  induction (lt_wf n) as [n _ IH]. intros s ->.
  destruct s as [| c s]; [exact Hnil |].
  destruct (match_here (c :: s)) as [[key rest] |] eqn:Hm.
  - apply match_here_inv in Hm as [Heq Hid]. rewrite Heq.
    apply Hmatch; [assumption |].
    apply (IH (length rest)); [| reflexivity].
    rewrite Heq, length_app, placeholder_length. lia.
  - apply Hskip; [assumption |].
    apply (IH (length s)); [cbn; lia | reflexivity].
Qed.

(** *** Matches do not overlap *)

(** In a placeholder the opening brace stands at the head and nowhere
    else. *)
Lemma placeholder_brace (key : list ascii) :
  identifier key ->
  exists tail, placeholder key = "{"%char :: tail /\ "{"%char ∉ tail.
Proof.
  intros [_ Hw]. exists ("="%char :: key ++ CLOSE). split; [reflexivity |].
  rewrite not_elem_of_cons, not_elem_of_app. split; [discriminate |]. split.
  - intros Hin. rewrite Forall_forall in Hw. specialize (Hw _ Hin). discriminate.
  - unfold CLOSE. rewrite !not_elem_of_cons. repeat split; try discriminate.
    apply not_elem_of_nil.
Qed.

Lemma placeholder_inj (key k post rest : list ascii) :
  identifier key -> identifier k ->
  placeholder key ++ post = placeholder k ++ rest -> key = k /\ post = rest.
Proof.
  intros Hkey Hk Heq.
  pose proof (match_here_placeholder key post Hkey) as H1.
  rewrite Heq, (match_here_placeholder k rest Hk) in H1.
  inversion H1; subst. split; reflexivity.
Qed.

(** Matches do not overlap: when a text [pre] followed by a placeholder
    starts with a placeholder, this one is the placeholder that follows an
    empty [pre], or it lies within [pre]. *)
Lemma placeholder_before (pre key post k rest : list ascii) :
  identifier key -> identifier k ->
  pre ++ placeholder key ++ post = placeholder k ++ rest ->
  (pre = [] /\ k = key /\ rest = post) \/
  (exists pre', pre = placeholder k ++ pre' /\ rest = pre' ++ placeholder key ++ post).
Proof.
  intros Hkey Hk Heq.
  destruct pre as [| c pre].
  { left. cbn in Heq. apply placeholder_inj in Heq as [-> ->]; auto. }
  right. apply app_eq_inv in Heq as [[l [Hpre Hrest]] | [l [Hk' Hl]]].
  { exists l. auto. }
  destruct l as [| d l].
  { exists []. rewrite app_nil_r in Hk'. cbn in Hl. rewrite app_nil_r. auto. }
  exfalso.
  destruct (placeholder_brace key Hkey) as [tail [Htail _]].
  rewrite Htail in Hl. cbn in Hl. inversion Hl; subst d.
  destruct (placeholder_brace k Hk) as [tail' [Htail' Hfresh]].
  rewrite Htail' in Hk'. cbn in Hk'. inversion Hk'; subst.
  apply Hfresh. rewrite elem_of_app, elem_of_cons. auto.
Qed.

(** The scan of a text around one of its placeholders: the pieces before
    it, the match, the pieces after it. *)
Lemma pieces_app_placeholder (pre key post : list ascii) :
  identifier key ->
  pieces (pre ++ placeholder key ++ post) =
    pieces pre ++ Matched key :: pieces post.
Proof.
  intros Hkey. induction pre as [| k rest Hk IH | c s Hnone IH] using scan_ind.
  - cbn. apply pieces_matched, Hkey.
  - rewrite <- app_assoc, !pieces_matched by assumption.
    rewrite IH. reflexivity.
  - cbn [app]. rewrite !pieces_unmatched; [rewrite IH; reflexivity | assumption |].
    destruct (match_here (c :: s ++ placeholder key ++ post))
      as [[k rest] |] eqn:Hm; [| reflexivity].
    exfalso. apply match_here_inv in Hm as [Heq Hk].
    change (c :: s ++ placeholder key ++ post)
      with ((c :: s) ++ placeholder key ++ post) in Heq.
    apply placeholder_before in Heq as [[Hnil _] | [pre' [Hpre _]]];
      [discriminate | | assumption | assumption].
    rewrite Hpre, match_here_placeholder in Hnone by assumption. discriminate.
Qed.

(** A text without a placeholder is scanned into its code units. *)
Lemma pieces_placeholder_free (s : list ascii) :
  placeholder_free s -> pieces s = map Unmatched s.
Proof.
  induction s as [| k rest Hk IH | c s Hnone IH] using scan_ind; intros Hfree.
  - reflexivity.
  - exfalso. apply (Hfree [] k rest Hk). reflexivity.
  - rewrite pieces_unmatched by assumption. cbn. f_equal. apply IH.
    intros pre key post Hkey ->. apply (Hfree (c :: pre) key post Hkey). reflexivity.
Qed.

(** *** The replacer *)

Lemma replacer_substitute (data : gmap string JsValue) (key : list ascii) (n : nat) :
  replacer data (string_of_list_ascii (placeholder key))
                (string_of_list_ascii key) n =
    match substitute data key with
    | Some v => (string_of_list_ascii v, S n)
    | None => (string_of_list_ascii (placeholder key), n)
    end.
Proof.
  unfold replacer, substitute.
  destruct (bool_decide _); [reflexivity |].
  destruct (negb _); [reflexivity |].
  destruct (get_property _ _); try reflexivity;
    rewrite string_of_list_ascii_of_string; reflexivity.
Qed.

(** [replace] hands back the output of the pieces and adds their count to
    the counter. *)
Lemma replace_pieces_output (data : gmap string JsValue) (ps : list Piece) (n : nat) :
  replace_pieces (replacer data) ps n = (output data ps, n + count data ps).
Proof.
  revert n. induction ps as [| [c | key] ps IH]; intros n; cbn [replace_pieces].
  - cbn. f_equal. lia.
  - rewrite IH. reflexivity.
  - rewrite replacer_substitute.
    destruct (substitute data key) as [v |] eqn:Hsub;
      rewrite IH, list_ascii_of_string_of_list_ascii;
      unfold count, output;
      cbn [map concat List.filter substituted render length];
      rewrite Hsub; cbn [length]; f_equal; lia.
Qed.

Lemma output_app (data : gmap string JsValue) (ps qs : list Piece) :
  output data (ps ++ qs) = output data ps ++ output data qs.
Proof. unfold output. rewrite map_app, concat_app. reflexivity. Qed.

Lemma count_app (data : gmap string JsValue) (ps qs : list Piece) :
  count data (ps ++ qs) = count data ps + count data qs.
Proof. unfold count. rewrite List.filter_app, length_app. reflexivity. Qed.

Lemma output_unmatched (data : gmap string JsValue) (s : list ascii) :
  output data (map Unmatched s) = s.
Proof. induction s as [| c s IH]; [reflexivity |]. unfold output in *. cbn. rewrite IH. reflexivity. Qed.

Lemma count_unmatched (data : gmap string JsValue) (s : list ascii) :
  count data (map Unmatched s) = 0.
Proof. induction s as [| c s IH]; [reflexivity | exact IH]. Qed.

(** *** Strings and their code units *)

Lemma list_ascii_of_string_app (a b : string) :
  list_ascii_of_string (a +:+ b) = list_ascii_of_string a ++ list_ascii_of_string b.
Proof. induction a as [| c a IH]; [reflexivity | simpl; rewrite IH; reflexivity]. Qed.

Lemma string_of_list_ascii_app (a b : list ascii) :
  string_of_list_ascii (a ++ b) = (string_of_list_ascii a +:+ string_of_list_ascii b)%string.
Proof. induction a as [| c a IH]; [reflexivity | simpl; rewrite IH; reflexivity]. Qed.

(** [applyTemplate] through the pieces of its text. *)
Lemma applyTemplate_pieces (text : string) (data : gmap string JsValue) :
  applyTemplate text data =
    {| content := string_of_list_ascii (output data (pieces (list_ascii_of_string text)));
       replaced := count data (pieces (list_ascii_of_string text)) |}.
Proof.
  unfold applyTemplate, String_replace. rewrite replace_pieces_output. reflexivity.
Qed.

(** *** Each placeholder on its own *)

Lemma placeholder_text_units (key : string) :
  list_ascii_of_string (placeholder_text key) = placeholder (list_ascii_of_string key).
Proof.
  unfold placeholder_text, placeholder. rewrite !list_ascii_of_string_app. reflexivity.
Qed.

(** C4. [applyTemplate] leaves a text without placeholder as it is, with
    count 0.  Around any occurrence [{=key=}] of the placeholder syntax, the
    text before it and the text after it are processed on their own; the
    occurrence itself is kept and not counted when [key] is excluded, is no
    property of [data], or has a value that is neither a string nor a
    number, and is otherwise replaced, delimiters included, by the string
    form of the value and counted once. *)
Theorem placeholders_substituted (data : gmap string JsValue) :
  (forall text, ~ has_placeholder text ->
     applyTemplate text data = {| content := text; replaced := 0 |}) /\
  (forall pre key post, is_identifier key ->
     let before := applyTemplate pre data in
     let after := applyTemplate post data in
     ((key ∈ EXCLUDED_KEYS \/ has_property data key = false \/
       (typeof (get_property data key) <> TString /\
        typeof (get_property data key) <> TNumber)) ->
      applyTemplate (pre +:+ placeholder_text key +:+ post) data =
        {| content := content before +:+ placeholder_text key +:+ content after;
           replaced := replaced before + replaced after |}) /\
     (forall v, key ∉ EXCLUDED_KEYS -> has_property data key = true ->
        (get_property data key = JString v \/
         (exists n, get_property data key = JNumber n /\ v = Number_toString n)) ->
        applyTemplate (pre +:+ placeholder_text key +:+ post) data =
          {| content := content before +:+ v +:+ content after;
             replaced := replaced before + 1 + replaced after |})).
Proof.
  split.
  - intros text Hfree. rewrite applyTemplate_pieces.
    rewrite pieces_placeholder_free.
    + rewrite output_unmatched, count_unmatched, string_of_list_ascii_of_string.
      reflexivity.
    + intros pre key post Hkey Heq. apply Hfree.
      exists (string_of_list_ascii pre), (string_of_list_ascii key),
             (string_of_list_ascii post).
      split.
      * unfold is_identifier. rewrite list_ascii_of_string_of_list_ascii. exact Hkey.
      * rewrite <- (string_of_list_ascii_of_string text), Heq.
        rewrite !string_of_list_ascii_app. unfold placeholder_text, placeholder.
        rewrite !string_of_list_ascii_app. reflexivity.
  - intros pre key post Hkey before after.
    assert (forall r n,
      render data (Matched (list_ascii_of_string key)) = list_ascii_of_string r ->
      count data [Matched (list_ascii_of_string key)] = n ->
      applyTemplate (pre +:+ placeholder_text key +:+ post) data =
        {| content := content before +:+ r +:+ content after;
           replaced := replaced before + n + replaced after |}) as Hgen.
    { intros r n Hr Hn. subst before after. rewrite !applyTemplate_pieces. cbn [content replaced].
      rewrite !list_ascii_of_string_app, placeholder_text_units.
      rewrite pieces_app_placeholder by exact Hkey.
      change (Matched (list_ascii_of_string key) :: pieces (list_ascii_of_string post))
        with ([Matched (list_ascii_of_string key)] ++ pieces (list_ascii_of_string post)).
      rewrite !output_app, !count_app, Hn. unfold output at 2. cbn [map concat].
      rewrite app_nil_r, Hr, !string_of_list_ascii_app, string_of_list_ascii_of_string.
      f_equal. lia. }
    split.
    + intros Hleft. rewrite (Hgen (placeholder_text key) 0).
      * f_equal. lia.
      * rewrite placeholder_text_units. cbn. unfold substitute.
        rewrite string_of_list_ascii_of_string.
        destruct Hleft as [Hex | [Hno | [Hs Hn]]].
        -- rewrite bool_decide_eq_true_2 by exact Hex. reflexivity.
        -- destruct (bool_decide _); [reflexivity |]. rewrite Hno. reflexivity.
        -- destruct (bool_decide _); [reflexivity |].
           destruct (negb _); [reflexivity |].
           destruct (get_property data key); try reflexivity; cbn in *; congruence.
      * unfold count. cbn. unfold substitute.
        rewrite string_of_list_ascii_of_string.
        destruct Hleft as [Hex | [Hno | [Hs Hn]]].
        -- rewrite bool_decide_eq_true_2 by exact Hex. reflexivity.
        -- destruct (bool_decide _); [reflexivity |]. rewrite Hno. reflexivity.
        -- destruct (bool_decide _); [reflexivity |].
           destruct (negb _); [reflexivity |].
           destruct (get_property data key); try reflexivity; cbn in *; congruence.
    + intros v Hex Hhas Hval.
      assert (substitute data (list_ascii_of_string key) = Some (list_ascii_of_string v)) as Hsub.
      { unfold substitute. rewrite string_of_list_ascii_of_string.
        rewrite bool_decide_eq_false_2 by exact Hex. rewrite Hhas. cbn.
        destruct Hval as [-> | [n [-> ->]]]; reflexivity. }
      apply Hgen.
      * cbn. rewrite Hsub. reflexivity.
      * unfold count. cbn. rewrite Hsub. reflexivity.
Qed.

(** *** A second application *)

(** The scan loses no text: the fuel never runs out. *)
Lemma source_pieces (s : list ascii) : source (pieces s) = s.
Proof.
  induction s as [| k rest Hk IH | c s Hnone IH] using scan_ind.
  - reflexivity.
  - rewrite pieces_matched by assumption. unfold source in *. cbn. rewrite IH.
    reflexivity.
  - rewrite pieces_unmatched by assumption. unfold source in *. cbn. rewrite IH.
    reflexivity.
Qed.

Lemma scanned_pieces (s : list ascii) : scanned (pieces s).
Proof. unfold scanned. rewrite source_pieces. reflexivity. Qed.

Lemma scanned_tail (p : Piece) (ps : list Piece) :
  scanned (p :: ps) ->
  scanned ps /\ match p with Matched key => identifier key | Unmatched _ => True end.
Proof.
  unfold scanned, source. cbn [map concat]. fold (source ps).
  destruct p as [c | key]; cbn [raw app].
  - destruct (match_here (c :: source ps)) as [[k rest] |] eqn:Hm.
    + apply match_here_inv in Hm as [Heq Hk]. rewrite Heq, pieces_matched by assumption.
      discriminate.
    + rewrite pieces_unmatched by assumption. intros Heq. inversion Heq as [Hps].
      rewrite Hps. split; [assumption | exact I].
  - destruct (placeholder key ++ source ps) as [| c s] eqn:Hs.
    { rewrite pieces_nil. discriminate. }
    destruct (match_here (c :: s)) as [[k rest] |] eqn:Hm.
    + apply match_here_inv in Hm as [Heq Hk]. rewrite Heq, pieces_matched by assumption.
      intros Hps. inversion Hps as [[Hkey Hrest]]. subst k.
      rewrite Heq in Hs. apply app_inv_head in Hs. subst rest.
      rewrite Hrest. split; assumption.
    + rewrite pieces_unmatched by assumption. discriminate.
Qed.

Lemma scanned_app (ps qs : list Piece) : scanned (ps ++ qs) -> scanned qs.
Proof.
  induction ps as [| p ps IH]; [auto |].
  intros Hs. apply IH. exact (proj1 (scanned_tail _ _ Hs)).
Qed.

Lemma source_app (ps qs : list Piece) : source (ps ++ qs) = source ps ++ source qs.
Proof. unfold source. rewrite map_app, concat_app. reflexivity. Qed.

Lemma source_unmatched (s : list ascii) : source (map Unmatched s) = s.
Proof.
  induction s as [| c s IH]; [reflexivity |].
  unfold source in *. cbn. rewrite IH. reflexivity.
Qed.

Lemma placeholder_units (key rest : list ascii) :
  placeholder key ++ rest =
    "{"%char :: "="%char :: key ++ "="%char :: "}"%char :: rest.
Proof. unfold placeholder, OPEN, CLOSE. cbn. rewrite <- app_assoc. reflexivity. Qed.

Section Stable.

Variable data : gmap string JsValue.

(** No substituted text holds a character of the delimiters. *)
Hypothesis clean : forall key v,
  identifier key -> substitute data key = Some v ->
  forall c, c ∈ v -> ~ delimiter c.

(** No substituted text occurs inside an identifier that is substituted. *)
Hypothesis apart : forall key v key',
  identifier key -> substitute data key = Some v ->
  identifier key' -> substitute data key' <> None ->
  ~ occurs_in v key'.

Lemma substitute_nonempty (key v : list ascii) :
  identifier key -> substitute data key = Some v -> v <> [].
Proof.
  intros Hkey Hsub ->. apply (apart key [] key Hkey Hsub Hkey).
  - congruence.
  - exists [], key. reflexivity.
Qed.

(** A delimiter character other than the opening brace at the head of the
    output is a piece of its own. *)
Lemma output_delimiter (c : ascii) (rest : list ascii) (ps : list Piece) :
  scanned ps ->
  c = "="%char \/ c = "}"%char ->
  output data ps = c :: rest ->
  exists ps', ps = Unmatched c :: ps' /\ output data ps' = rest.
Proof.
  intros Hs Hc Hout. destruct ps as [| p ps]; [discriminate |].
  apply scanned_tail in Hs as [_ Hp].
  unfold output in Hout. cbn [map concat] in Hout. fold (output data ps) in Hout.
  destruct p as [d | key]; cbn [render] in Hout.
  - inversion Hout; subst. eauto.
  - exfalso. destruct (substitute data key) as [v |] eqn:Hsub.
    + destruct v as [| d v]; [exact (substitute_nonempty key [] Hp Hsub eq_refl) |].
      inversion Hout; subst d.
      apply (clean key (c :: v) Hp Hsub c); [left |].
      unfold delimiter. tauto.
    + unfold placeholder in Hout. inversion Hout; subst c.
      destruct Hc; discriminate.
Qed.

(** A run of word characters at the head of the output, when no
    substituted text occurs inside it, is made of pieces of their own. *)
Lemma output_word (w rest : list ascii) (ps : list Piece) :
  scanned ps ->
  Forall (fun c => is_word_char c = true) w ->
  (forall key v, identifier key -> substitute data key = Some v -> ~ occurs_in v w) ->
  output data ps = w ++ "="%char :: rest ->
  exists ps', ps = map Unmatched w ++ ps' /\ output data ps' = "="%char :: rest.
Proof.
  intros Hs Hw. revert ps Hs. induction Hw as [| c w Hc Hw IH]; intros ps Hs Hfree Hout.
  { exists ps. auto. }
  destruct ps as [| p ps]; [discriminate |].
  apply scanned_tail in Hs as [Hs Hp].
  unfold output in Hout. cbn [map concat] in Hout. fold (output data ps) in Hout.
  destruct p as [d | key]; cbn [render] in Hout.
  - inversion Hout; subst d. destruct (IH ps Hs) as [ps' [-> Hps']].
    + intros key v Hkey Hsub [a [b ->]]. apply (Hfree key v Hkey Hsub).
      exists (c :: a), b. reflexivity.
    + assumption.
    + exists ps'. auto.
  - exfalso. destruct (substitute data key) as [v |] eqn:Hsub.
    + apply (Hfree key v Hp Hsub). exists []. cbn.
      apply app_eq_inv in Hout as [[l [Hv Hl]] | [l [Hcw Hl]]].
      * destruct l as [| d l].
        -- rewrite app_nil_r in Hv. exists []. rewrite app_nil_r. auto.
        -- exfalso. cbn in Hl. inversion Hl; subst d.
           apply (clean key v Hp Hsub "="%char).
           ++ rewrite Hv. apply elem_of_app. right. left.
           ++ unfold delimiter. auto.
      * exists l. exact Hcw.
    + unfold placeholder in Hout. inversion Hout; subst c. discriminate.
Qed.

(** No placeholder of the output is one the replacer substitutes. *)
Lemma output_placeholder (ps : list Piece) :
  scanned ps ->
  forall a w b, identifier w ->
    output data ps = a ++ placeholder w ++ b -> substitute data w = None.
Proof.
  induction ps as [| p ps IH]; intros Hs a w b Hw Hout.
  { rewrite placeholder_units in Hout. destruct a; discriminate. }
  pose proof Hs as Hall. apply scanned_tail in Hs as [Hs Hp].
  unfold output in Hout. cbn [map concat] in Hout. fold (output data ps) in Hout.
  apply app_eq_inv in Hout as [[l [Hr Hl]] | [l [Ha Hl]]];
    [| exact (IH Hs l w b Hw Hl)].
  destruct l as [| d l].
  { apply (IH Hs [] w b Hw). symmetry. exact Hl. }
  rewrite placeholder_units in Hl. cbn [app] in Hl.
  inversion Hl as [[Hd Hrest]]. subst d. clear Hl.
  destruct p as [c | key]; cbn [render] in Hr.
  - (* the brace is a code unit of the text: the rest of the placeholder
       would be code units too, and the scan would have matched there *)
    destruct a as [| c' a]; [| destruct a; discriminate].
    inversion Hr; subst c l. cbn [app] in Hrest.
    destruct (substitute data w) as [v |] eqn:Hsub; [exfalso | reflexivity].
    symmetry in Hrest.
    destruct (output_delimiter _ _ _ Hs (or_introl eq_refl) Hrest)
      as [ps1 [-> Hout1]].
    apply scanned_tail in Hs as [Hs1 _].
    destruct (output_word w ("}"%char :: b) ps1 Hs1 (proj2 Hw)) as [ps2 [-> Hout2]].
    { intros key v' Hkey Hsub'. apply (apart key v' w Hkey Hsub' Hw). congruence. }
    { exact Hout1. }
    apply scanned_app in Hs1 as Hs2.
    destruct (output_delimiter _ _ _ Hs2 (or_introl eq_refl) Hout2)
      as [ps3 [-> Hout3]].
    apply scanned_tail in Hs2 as [Hs3 _].
    destruct (output_delimiter _ _ _ Hs3 (or_intror eq_refl) Hout3)
      as [ps4 [-> _]].
    unfold scanned in Hall.
    assert (source (Unmatched "{" :: Unmatched "=" :: map Unmatched w ++
                    Unmatched "=" :: Unmatched "}" :: ps4)
            = placeholder w ++ source ps4) as Hsource.
    { rewrite placeholder_units.
      change (Unmatched "{" :: Unmatched "=" :: map Unmatched w ++
              Unmatched "=" :: Unmatched "}" :: ps4)
        with ([Unmatched "{"; Unmatched "="] ++ map Unmatched w ++
              [Unmatched "="; Unmatched "}"] ++ ps4).
      rewrite !source_app, source_unmatched. reflexivity. }
    rewrite Hsource, pieces_matched in Hall by assumption. discriminate.
  - destruct (substitute data key) as [v |] eqn:Hsub.
    + (* a substituted text holds no brace *)
      exfalso. apply (clean key v Hp Hsub "{"%char).
      * rewrite Hr. apply elem_of_app. right. left.
      * unfold delimiter. auto.
    + (* an unreplaced placeholder: the brace is its head *)
      destruct (placeholder_brace key Hp) as [tail [Htail Hfresh]].
      destruct a as [| c a].
      * cbn [app] in Hr. assert (w = key) as ->; [| exact Hsub].
        apply (placeholder_inj w key b (output data ps) Hw Hp).
        rewrite (placeholder_units w), Hrest, Hr. reflexivity.
      * exfalso. rewrite Htail in Hr. inversion Hr; subst.
        apply Hfresh. apply elem_of_app. right. left.
Qed.

(** A text none of whose placeholders is substituted is returned as it is. *)
Lemma output_unchanged (s : list ascii) :
  (forall a w b, identifier w -> s = a ++ placeholder w ++ b ->
     substitute data w = None) ->
  output data (pieces s) = s /\ count data (pieces s) = 0.
Proof.
  induction s as [| k rest Hk IH | c s Hnone IH] using scan_ind; intros Hnot.
  - split; reflexivity.
  - rewrite pieces_matched by assumption.
    pose proof (Hnot [] k rest Hk eq_refl) as Hsub.
    destruct IH as [IHo IHc].
    { intros a w b Hw ->. apply (Hnot (placeholder k ++ a) w b Hw).
      rewrite <- app_assoc. reflexivity. }
    unfold output, count in *. cbn. rewrite Hsub, IHo. cbn. auto.
  - rewrite pieces_unmatched by assumption.
    destruct IH as [IHo IHc].
    { intros a w b Hw ->. apply (Hnot (c :: a) w b Hw). reflexivity. }
    unfold output, count in *. cbn. rewrite IHo. auto.
Qed.

Lemma output_twice (s : list ascii) :
  output data (pieces (output data (pieces s))) = output data (pieces s) /\
  count data (pieces (output data (pieces s))) = 0.
Proof.
  apply output_unchanged. intros a w b Hw Heq.
  exact (output_placeholder (pieces s) (scanned_pieces s) a w b Hw Heq).
Qed.

End Stable.

Lemma substitute_substitutes (data : gmap string JsValue) (key v : list ascii) :
  identifier key -> substitute data key = Some v ->
  substitutes data (string_of_list_ascii key) (string_of_list_ascii v).
Proof.
  intros Hkey. unfold substitute, substitutes, is_identifier.
  rewrite list_ascii_of_string_of_list_ascii.
  destruct (bool_decide_reflect (string_of_list_ascii key ∈ EXCLUDED_KEYS));
    [discriminate |].
  destruct (has_property data (string_of_list_ascii key)); [| discriminate].
  cbn [negb].
  destruct (get_property data (string_of_list_ascii key)); try discriminate;
    intros Heq; inversion Heq; subst; rewrite string_of_list_ascii_of_string;
    (split; [assumption | split; [assumption | split; [reflexivity |]]]).
  - right. eexists. split; reflexivity.
  - left. reflexivity.
Qed.

(** C6, as amended.  When no text the replacer substitutes holds a
    character of the delimiters or occurs inside an identifier the replacer
    substitutes, applying [applyTemplate] to its own output with the same
    data returns that output, with count 0. *)
Theorem second_application_unchanged (data : gmap string JsValue) :
  stable_data data ->
  forall text,
    applyTemplate (content (applyTemplate text data)) data =
      {| content := content (applyTemplate text data); replaced := 0 |}.
Proof.
  intros Hstable text.
  rewrite (applyTemplate_pieces text). cbn [content].
  rewrite applyTemplate_pieces, list_ascii_of_string_of_list_ascii.
  destruct (output_twice data) with (s := list_ascii_of_string text) as [Hout Hcount].
  - intros key v Hkey Hsub c Hc.
    apply (proj1 (Hstable _ _ (substitute_substitutes data key v Hkey Hsub))).
    rewrite list_ascii_of_string_of_list_ascii. exact Hc.
  - intros key v key' Hkey Hsub Hkey' Hsub' [a [b Hocc]].
    destruct (substitute data key') as [v' |] eqn:Hv'; [| congruence].
    apply (proj2 (Hstable _ _ (substitute_substitutes data key v Hkey Hsub))
             _ _ (substitute_substitutes data key' v' Hkey' Hv')
             (string_of_list_ascii a) (string_of_list_ascii b)).
    rewrite Hocc, !string_of_list_ascii_app. reflexivity.
  - rewrite Hout, Hcount. reflexivity.
Qed.

(** *** Checking [stable_data] by evaluation *)

Lemma occursb_complete (v a b : list ascii) : occursb v (a ++ v ++ b) = true.
Proof.
  induction a as [| c a IH].
  - cbn [app]. destruct (v ++ b) eqn:E; cbn [occursb]; rewrite <- ?E, strip_literal_app; reflexivity.
  - cbn [app occursb]. rewrite IH. destruct (strip_literal _ _); reflexivity.
Qed.

Lemma substitutes_substitutions (data : gmap string JsValue) (key v : string) :
  substitutes data key v -> (key, v) ∈ substitutions data.
Proof.
  intros (Hid & Hex & _ & Hval). unfold substitutions.
  assert (exists value, data !! key = Some value /\
            (value = JString v \/ exists n, value = JNumber n /\ v = Number_toString n))
    as (value & Hlook & Hvalue).
  { unfold get_property, inherited in Hval.
    destruct (data !! key) as [value |]; [eauto |].
    exfalso. repeat destruct (bool_decide _);
      destruct Hval as [Hval | [n [Hval _]]]; discriminate. }
  apply list_elem_of_omap. exists (key, value). split.
  - apply elem_of_map_to_list. exact Hlook.
  - cbn. assert (is_identifierb key = true) as ->.
    { unfold is_identifierb. destruct Hid as [Hne Hw].
      destruct (list_ascii_of_string key) as [| c l]; [contradiction |].
      apply forallb_forall. intros d Hd. rewrite Forall_forall in Hw.
      apply Hw. apply list_elem_of_In. exact Hd. }
    rewrite bool_decide_eq_false_2 by exact Hex. cbn.
    destruct Hvalue as [-> | [n [-> ->]]]; reflexivity.
Qed.

Lemma stable_datab_sound (data : gmap string JsValue) :
  stable_datab data = true -> stable_data data.
Proof.
  unfold stable_datab. cbv zeta. rewrite forallb_forall. intros Hall key v Hsub.
  apply substitutes_substitutions, list_elem_of_In in Hsub.
  specialize (Hall _ Hsub). cbn in Hall. apply andb_true_iff in Hall as [Hclean Hapart].
  rewrite forallb_forall in Hclean, Hapart. split.
  - intros c Hc Hdel. apply list_elem_of_In in Hc. specialize (Hclean _ Hc).
    destruct Hdel as [-> | [-> | ->]]; discriminate.
  - intros key' v' Hsub' a b ->.
    apply substitutes_substitutions, list_elem_of_In in Hsub'.
    specialize (Hapart _ Hsub'). cbn in Hapart.
    rewrite !list_ascii_of_string_app, occursb_complete in Hapart. discriminate.
Qed.

(** The output of the scenario of the specification, applied again. *)
Lemma second_application_unchanged_witness :
  applyTemplate "Title: Good Will Hunting (1997)" good_will_hunting =
    {| content := "Title: Good Will Hunting (1997)"; replaced := 0 |}.
Proof.
  apply (second_application_unchanged good_will_hunting
           (stable_datab_sound good_will_hunting eq_refl)
           "Title: {=Title=} ({=Year=})").
Defined.

(** The scenarios of the specification. *)
Example template_scenario_substituted :
  applyTemplate "Title: {=Title=} ({=Year=})" good_will_hunting =
    {| content := "Title: Good Will Hunting (1997)"; replaced := 2 |}.
Proof. vm_compute. reflexivity. Qed.

Example template_scenario_absent_field :
  applyTemplate "{=Director=}" good_will_hunting =
    {| content := "{=Director=}"; replaced := 0 |}.
Proof. vm_compute. reflexivity. Qed.

(** The scenario of the specification, around its first placeholder. *)
Lemma placeholders_substituted_witness :
  applyTemplate ("Title: " +:+ placeholder_text "Title" +:+ " ({=Year=})")
                good_will_hunting =
    {| content := content (applyTemplate "Title: " good_will_hunting)
                  +:+ "Good Will Hunting"
                  +:+ content (applyTemplate " ({=Year=})" good_will_hunting);
       replaced := replaced (applyTemplate "Title: " good_will_hunting) + 1
                   + replaced (applyTemplate " ({=Year=})" good_will_hunting) |}.
Proof.
  assert (is_identifier "Title") as Hid.
  { split; [discriminate | repeat constructor]. }
  apply (proj2 (proj2 (placeholders_substituted good_will_hunting)
                  "Title: " "Title" " ({=Year=})" Hid)
           "Good Will Hunting").
  - apply (bool_decide_unpack _). vm_compute. exact I.
  - vm_compute. reflexivity.
  - left. vm_compute. reflexivity.
Defined.

(** C6, as stated, fails: a substituted value that is written as a
    placeholder is substituted by the second application. *)
Lemma second_application_changes :
  applyTemplate "{=Title=}" title_is_placeholder =
    {| content := "{=Year=}"; replaced := 1 |} /\
  applyTemplate "{=Year=}" title_is_placeholder =
    {| content := "1997"; replaced := 1 |} /\
  content (applyTemplate (content (applyTemplate "{=Title=}" title_is_placeholder))
                         title_is_placeholder)
  <> content (applyTemplate "{=Title=}" title_is_placeholder).
Proof.
  split; [vm_compute; reflexivity |].
  split; [vm_compute; reflexivity |].
  vm_compute. discriminate.
Qed.

(** A substituted value without any delimiter character can still complete
    a placeholder with the text around it. *)
Example second_application_completes_placeholder :
  applyTemplate "{={=Title=}=}" title_is_field_name =
    {| content := "{=Year=}"; replaced := 1 |} /\
  applyTemplate "{=Year=}" title_is_field_name =
    {| content := "1997"; replaced := 1 |}.
Proof. split; vm_compute; reflexivity. Qed.

(** *** Further properties of the templates *)

(** Where the replacer substitutes nothing, the pieces turn into the text
    they were cut from. *)
Lemma output_source (data : gmap string JsValue) (ps : list Piece) :
  count data ps = 0 -> output data ps = source ps.
Proof.
  unfold count, output, source.
  induction ps as [| [c | key] ps IH]; cbn; intros Hcount.
  - reflexivity.
  - rewrite IH by assumption. reflexivity.
  - destruct (substitute data key); cbn in Hcount; [discriminate |].
    rewrite IH by assumption. reflexivity.
Qed.

(** The replacer reads [data] at the capture group only. *)
Lemma substitute_lookup (d1 d2 : gmap string JsValue) (key : list ascii) :
  d1 !! string_of_list_ascii key = d2 !! string_of_list_ascii key ->
  substitute d1 key = substitute d2 key.
Proof.
  intros Heq. unfold substitute, has_property, get_property. rewrite Heq. reflexivity.
Qed.

Lemma output_agree (d1 d2 : gmap string JsValue) (ps : list Piece) :
  (forall key, Matched key ∈ ps -> substitute d1 key = substitute d2 key) ->
  output d1 ps = output d2 ps /\ count d1 ps = count d2 ps.
Proof.
  unfold output, count.
  induction ps as [| [c | key] ps IH]; intros Hagree; cbn.
  - split; reflexivity.
  - destruct IH as [-> Hc]; [intros k Hk; apply Hagree; right; exact Hk |].
    split; [reflexivity | exact Hc].
  - destruct IH as [-> Hc]; [intros k Hk; apply Hagree; right; exact Hk |].
    rewrite (Hagree key) by left.
    destruct (substitute d2 key); cbn; rewrite Hc; split; reflexivity.
Qed.

(** A match of the scan is an occurrence of its placeholder in the text. *)
Lemma matched_occurs (s key : list ascii) :
  Matched key ∈ pieces s ->
  identifier key /\ exists a b, s = a ++ placeholder key ++ b.
Proof.
  intros Hin. apply list_elem_of_split in Hin as (l1 & l2 & Hsplit). split.
  - pose proof (scanned_pieces s) as Hscanned. rewrite Hsplit in Hscanned.
    apply scanned_app, scanned_tail in Hscanned. apply Hscanned.
  - exists (source l1), (source l2).
    rewrite <- (source_pieces s) at 1. rewrite Hsplit, source_app. reflexivity.
Qed.

Lemma placeholder_string (key : list ascii) :
  string_of_list_ascii (placeholder key) = placeholder_text (string_of_list_ascii key).
Proof.
  rewrite <- (string_of_list_ascii_of_string (placeholder_text _)).
  rewrite placeholder_text_units, list_ascii_of_string_of_list_ascii. reflexivity.
Qed.

(** An occurrence on code units is one on strings. *)
Lemma occurrence_string (text : string) (a key b : list ascii) :
  list_ascii_of_string text = a ++ placeholder key ++ b ->
  text = (string_of_list_ascii a +:+ placeholder_text (string_of_list_ascii key)
          +:+ string_of_list_ascii b)%string.
Proof.
  intros Heq. rewrite <- (string_of_list_ascii_of_string text), Heq.
  rewrite !string_of_list_ascii_app, placeholder_string. reflexivity.
Qed.

(** X11. When [applyTemplate] reports that it replaced nothing, the content
    it returns is the text it was given. *)
Theorem nothing_replaced_text_unchanged (text : string) (data : gmap string JsValue) :
  replaced (applyTemplate text data) = 0 ->
  content (applyTemplate text data) = text.
Proof.
  rewrite applyTemplate_pieces. cbn [replaced content]. intros Hcount.
  rewrite output_source by assumption.
  rewrite source_pieces. apply string_of_list_ascii_of_string.
Qed.

(** X12. The result depends on the fields the text names, and on no other:
    two records that have the same own property at every identifier whose
    placeholder occurs in the text give the same content and the same
    count. *)
Theorem unnamed_fields_irrelevant (text : string) (d1 d2 : gmap string JsValue) :
  (forall key, is_identifier key ->
     (exists a b, text = (a +:+ placeholder_text key +:+ b)%string) ->
     d1 !! key = d2 !! key) ->
  applyTemplate text d1 = applyTemplate text d2.
Proof.
  intros Hagree. rewrite !applyTemplate_pieces.
  destruct (output_agree d1 d2 (pieces (list_ascii_of_string text))) as [-> ->];
    [| reflexivity].
  intros key Hin. apply matched_occurs in Hin as (Hid & a & b & Hocc).
  apply substitute_lookup, Hagree.
  - unfold is_identifier. rewrite list_ascii_of_string_of_list_ascii. exact Hid.
  - eexists _, _. apply occurrence_string. exact Hocc.
Qed.

(** X13. A record whose own properties, [Response] apart, are neither
    strings nor numbers leaves every text as it is and counts nothing: what
    a plain object inherits is never substituted. *)
Theorem no_text_field_nothing_replaced (data : gmap string JsValue) (text : string) :
  map_Forall (fun key v =>
                key ∈ EXCLUDED_KEYS \/ (typeof v <> TString /\ typeof v <> TNumber))
             data ->
  applyTemplate text data = {| content := text; replaced := 0 |}.
Proof.
  intros Hdata. rewrite applyTemplate_pieces.
  destruct (output_unchanged data (list_ascii_of_string text)) as [-> ->].
  - intros a w b _ _. unfold substitute.
    destruct (bool_decide _) eqn:Hex; [reflexivity |].
    apply bool_decide_eq_false in Hex.
    unfold has_property, get_property.
    destruct (data !! string_of_list_ascii w) as [v |] eqn:Hlook.
    + cbn. destruct (Hdata _ _ Hlook) as [Hin | [Hs Hn]]; [contradiction |].
      destruct v; try reflexivity; [destruct Hn | destruct Hs]; reflexivity.
    + unfold inherited. repeat destruct (bool_decide _); reflexivity.
  - rewrite string_of_list_ascii_of_string. reflexivity.
Qed.

(** **** Instances *)

Lemma nothing_replaced_text_unchanged_witness :
  content (applyTemplate "Directed by {=Director=}" good_will_hunting)
  = "Directed by {=Director=}"%string.
Proof.
  apply (nothing_replaced_text_unchanged "Directed by {=Director=}" good_will_hunting).
  vm_compute. reflexivity.
Defined.

(** A plot added to the record does not change a note that asks for the
    title only. *)
Lemma unnamed_fields_irrelevant_witness :
  applyTemplate "Title: {=Title=}" good_will_hunting =
  applyTemplate "Title: {=Title=}"
    (<["Plot"%string := JString "A janitor at MIT."]> good_will_hunting).
Proof.
  apply (unnamed_fields_irrelevant "Title: {=Title=}" good_will_hunting
           (<["Plot"%string := JString "A janitor at MIT."]> good_will_hunting)).
  intros key _ (a & b & Hocc).
  destruct (decide (key = "Plot"%string)) as [-> | Hne].
  - exfalso.
    assert (occursb (list_ascii_of_string (placeholder_text "Plot"))
                    (list_ascii_of_string "Title: {=Title=}") = true) as Hocc'.
    { rewrite Hocc, !list_ascii_of_string_app. apply occursb_complete. }
    vm_compute in Hocc'. discriminate.
  - rewrite lookup_insert_ne by congruence. reflexivity.
Defined.

(** The result of a search has a string field, [totalResults]; without it
    nothing is left to substitute. *)
Lemma no_text_field_nothing_replaced_witness :
  applyTemplate "{=Response=} {=Search=} {=toString=}" search_without_total =
    {| content := "{=Response=} {=Search=} {=toString=}"; replaced := 0 |}.
Proof.
  apply (no_text_field_nothing_replaced search_without_total
           "{=Response=} {=Search=} {=toString=}").
  apply (bool_decide_unpack _). vm_compute. exact I.
Defined.

End TemplateProperties.

(* ===================================================================== *)
(** ** Properties of the command *)
(* ===================================================================== *)

Module CommandProperties.

Import Api Template Command Examples ApiProperties TemplateProperties.

(** *** The expression of the file name *)
















(** *** The year *)

Lemma is_digit_inv (c : ascii) :
  is_digit c = true -> exists d, d < 10 /\ c = digit d.
Proof.
  unfold is_digit. cbv zeta. intros H.
  apply andb_true_iff in H as [H1 H2]. apply Nat.leb_le in H1, H2.
  exists (nat_of_ascii c - 48). split; [lia |].
  unfold digit. replace (48 + (nat_of_ascii c - 48)) with (nat_of_ascii c) by lia.
  symmetry. apply ascii_nat_embedding.
Qed.

Lemma year_check_all :
  forallb (fun a => forallb (fun b => forallb (fun c => forallb (fun d =>
    year_check a b c d) (seq 0 10)) (seq 0 10)) (seq 0 10)) (seq 0 10) = true.
Proof. vm_compute. reflexivity. Qed.

Lemma year_check_digits (a b c d : nat) :
  a < 10 -> b < 10 -> c < 10 -> d < 10 -> year_check a b c d = true.
Proof.
  intros Ha Hb Hc Hd.
  assert (forall n, n < 10 -> In n (seq 0 10)) as Hin
    by (intros n Hn; apply in_seq; lia).
  pose proof (proj1 (forallb_forall _ _) year_check_all a (Hin a Ha)) as H1.
  pose proof (proj1 (forallb_forall _ _) H1 b (Hin b Hb)) as H2.
  pose proof (proj1 (forallb_forall _ _) H2 c (Hin c Hc)) as H3.
  exact (proj1 (forallb_forall _ _) H3 d (Hin d Hd)).
Qed.

(** X17. The year the command reads from the four digits of the name lies
    between 0 and 9999, and its string form, which the request carries, is
    these four digits unless the first of them is a zero. *)
Theorem year_of_digits (digits : list ascii) :
  length digits = 4 -> Forall (fun c => is_digit c = true) digits ->
  (0 <= parseInt digits <= 9999)%Z /\
  (forall c rest, digits = c :: rest -> c <> "0"%char ->
     Number_toString (parseInt digits) = string_of_list_ascii digits).
Proof.
  intros Hlen Hdigits.
  destruct digits as [| a [| b [| c [| d [| ? ?]]]]]; try discriminate.
  repeat match goal with
         | H : Forall _ (_ :: _) |- _ => apply Forall_cons in H as [? H]
         end.
  destruct (is_digit_inv a) as (na & Ha & ->); [assumption |].
  destruct (is_digit_inv b) as (nb & Hb & ->); [assumption |].
  destruct (is_digit_inv c) as (nc & Hc & ->); [assumption |].
  destruct (is_digit_inv d) as (nd & Hd & ->); [assumption |].
  pose proof (year_check_digits na nb nc nd Ha Hb Hc Hd) as Hcheck.
  unfold year_check in Hcheck. cbv zeta in Hcheck.
  apply andb_true_iff in Hcheck as [Hrange Hprint].
  apply andb_true_iff in Hrange as [Hlow Hhigh].
  apply Z.leb_le in Hlow, Hhigh. split; [lia |].
  intros c' rest [= <- <-] Hnonzero.
  apply orb_true_iff in Hprint as [Hzero | Heq].
  - apply Nat.eqb_eq in Hzero. subst na. contradiction Hnonzero. reflexivity.
  - apply String.eqb_eq. exact Heq.
Qed.

(** *** The run of the command *)

Lemma detail_result_object (v : JsValue) :
  isDetailResult v = true -> exists o, v = JObject o.
Proof.
  destruct v; try discriminate. intros _. eexists. reflexivity.
Qed.

Section Run.

Variable urlencode : string -> string.
Variable requestUrl : Trace -> RequestUrlParam -> RequestOutcome.

Local Abbreviation fetchMovieData := (Command.fetchMovieData urlencode requestUrl).
Local Abbreviation perform := (Api.perform urlencode requestUrl).
Local Abbreviation request_for := (Api.request_for urlencode).

(** For a name the expression matches, the command is the call of the
    client followed by its completion. *)
Lemma fetchMovieData_matched (b : string) (g1 g2 : list ascii)
    (apiKey note : string) (t : Trace) :
  FILENAME_PATTERN_match (list_ascii_of_string b) = Some (g1, g2) ->
  fetchMovieData (Some b) apiKey note t =
    (completion note (perform (command_call apiKey g1 g2) t).1,
     t ++ [request_for (call_url (command_call apiKey g1 g2))]).
Proof.
  intros Hmatch. unfold Command.fetchMovieData. rewrite Hmatch.
  change (fetchByTitle urlencode requestUrl apiKey (string_of_list_ascii g1) _ t)
    with (perform (command_call apiKey g1 g2) t).
  rewrite perform_unfold. cbn [fst].
  destruct (executeRequest_result _) as [body | e]; [| reflexivity].
  destruct (classify _ body) as [result | e]; [| reflexivity].
  cbn [completion]. cbv zeta.
  destruct (replaced _ =? 0); [reflexivity |].
  destruct (ToString _); reflexivity.
Qed.

(** X18. The command hands a request to the transport only for a file whose
    name the expression matches, and then exactly one: to the OMDb endpoint,
    with the API key, [r=json], the first group as [t] and the year of the
    second group as [y], and nothing else. *)
Theorem request_for_title_and_year (file : option string) (apiKey note : string)
    (t : Trace) :
  match file ≫= (fun b => FILENAME_PATTERN_match (list_ascii_of_string b)) with
  | None => (fetchMovieData file apiKey note t).2 = t
  | Some (g1, g2) =>
      exists u,
        (fetchMovieData file apiKey note t).2 = t ++ [request_for u] /\
        origin_and_path u = OMDB_BASE_URL /\
        searchParams u =
          [ ("apikey"%string, apiKey); ("r"%string, "json"%string);
            ("t"%string, string_of_list_ascii g1);
            ("y"%string, Number_toString (parseInt g2)) ]
  end.
Proof.
  destruct file as [b |]; cbn [mbind option_bind]; [| reflexivity].
  destruct (FILENAME_PATTERN_match (list_ascii_of_string b)) as [[g1 g2] |] eqn:Hmatch.
  - rewrite (fetchMovieData_matched b g1 g2) by assumption. cbn [snd].
    exists (call_url (command_call apiKey g1 g2)). split; [reflexivity |].
    split; [reflexivity |].
    destruct (call_params_keys (command_call apiKey g1 g2)) as (Hnd & Hk & Hr).
    unfold call_url. rewrite buildUrl_searchParams by assumption. reflexivity.
  - unfold Command.fetchMovieData. rewrite Hmatch. reflexivity.
Qed.

(** X19. Every run of the command ends with one notice.  It writes the note
    at most once, before that notice, and only with the content
    [applyTemplate] made of the note and of an object the client returned,
    when at least one placeholder was replaced. *)
Theorem note_written_after_success (file : option string) (apiKey note : string)
    (t : Trace) :
  let effects := (fetchMovieData file apiKey note t).1 in
  (exists text, effects = [Notice text]) \/
  (exists b g1 g2 o t' text,
     file = Some b /\
     FILENAME_PATTERN_match (list_ascii_of_string b) = Some (g1, g2) /\
     perform (command_call apiKey g1 g2) t = (Returns (JObject o), t') /\
     replaced (applyTemplate note o) <> 0 /\
     effects = [SetValue (content (applyTemplate note o)); Notice text]).
Proof.
  cbv zeta. destruct file as [b |]; [| left; eexists; reflexivity].
  destruct (FILENAME_PATTERN_match (list_ascii_of_string b)) as [[g1 g2] |] eqn:Hmatch.
  2: { left. unfold Command.fetchMovieData. rewrite Hmatch. eexists. reflexivity. }
  rewrite (fetchMovieData_matched b g1 g2) by assumption. cbn [fst].
  destruct (perform (command_call apiKey g1 g2) t) as [[result | e] t'] eqn:Hrun;
    cbn [fst completion]; [| left; eexists; reflexivity].
  assert (exists o, result = JObject o) as [o ->].
  { rewrite perform_unfold in Hrun. apply (f_equal fst) in Hrun. cbn [fst] in Hrun.
    destruct (executeRequest_result _) as [body | e]; [| discriminate].
    unfold classify, command_call in Hrun.
    destruct (isApiError body); [discriminate |].
    destruct (isDetailResult body) eqn:Hguard; [| discriminate].
    injection Hrun as <-. apply detail_result_object. exact Hguard. }
  cbv zeta. cbn [record_of].
  destruct (replaced (applyTemplate note o) =? 0) eqn:Hcount;
    [left; eexists; reflexivity |].
  apply Nat.eqb_neq in Hcount. right.
  destruct (ToString (get (JObject o) "Title")) as [title' |];
    exists b, g1, g2, o, t'; eexists; repeat split; assumption || reflexivity.
Qed.

(** X20. When the request fails, the note is left alone and the notice is
    the message of the client's error: the message of the thrown [Error],
    ["Network error"] for another thrown value, the HTTP status from 400
    on, and the [Error] text of a failure body. *)
Theorem failure_reported (b : string) (g1 g2 : list ascii) (apiKey note : string)
    (t : Trace) :
  FILENAME_PATTERN_match (list_ascii_of_string b) = Some (g1, g2) ->
  let outcome := requestUrl t (request_for (call_url (command_call apiKey g1 g2))) in
  let effects := (fetchMovieData (Some b) apiKey note t).1 in
  (forall m, outcome = Rejects (ThrownError m) -> effects = [Notice m]) /\
  (forall v, outcome = Rejects (ThrownValue v) -> effects = [Notice "Network error"]) /\
  (forall response, outcome = Resolves response -> (400 <= status response)%Z ->
     effects = [Notice ("OMDb returned HTTP " +:+ Number_toString (status response))]) /\
  (forall response o e, outcome = Resolves response -> (status response < 400)%Z ->
     json response = JObject o ->
     o !! "Response"%string = Some (JString "False") ->
     o !! "Error"%string = Some (JString e) ->
     effects = [Notice e]).
Proof.
  intros Hmatch. cbv zeta.
  rewrite (fetchMovieData_matched b g1 g2) by assumption. cbn [fst].
  rewrite perform_unfold. cbn [fst].
  repeat split.
  - intros m ->. reflexivity.
  - intros v ->. reflexivity.
  - intros response -> Hstatus. cbn [executeRequest_result].
    apply Z.leb_le in Hstatus. rewrite Hstatus. reflexivity.
  - intros response o e -> Hstatus Hbody Hresponse Herror.
    cbn [executeRequest_result]. apply Z.leb_gt in Hstatus.
    rewrite Hstatus, Hbody. cbn [loosely_null].
    unfold classify, isApiError, Error_of. cbn [typeof is_null get].
    unfold get_property. rewrite Hresponse, Herror. reflexivity.
Qed.

(** X21. When OMDb answers with a detail result, the command replaces the
    note by the content [applyTemplate] made of it and announces the title:
    the [Title] of the result, or [undefined] when the result has none.
    When nothing was replaced it writes nothing and says that it found no
    placeholder. *)
Theorem success_written_and_announced (b : string) (g1 g2 : list ascii)
    (apiKey note : string) (t : Trace) (response : RequestUrlResponse)
    (o : gmap string JsValue) (id : string) :
  FILENAME_PATTERN_match (list_ascii_of_string b) = Some (g1, g2) ->
  requestUrl t (request_for (call_url (command_call apiKey g1 g2))) = Resolves response ->
  (status response < 400)%Z ->
  json response = JObject o ->
  o !! "Response"%string = Some (JString "True") ->
  o !! "imdbID"%string = Some (JString id) ->
  let r := applyTemplate note o in
  let effects := (fetchMovieData (Some b) apiKey note t).1 in
  (replaced r = 0 -> effects = [Notice "No {=...=} placeholders found in note"]) /\
  (replaced r <> 0 -> forall title, o !! "Title"%string = Some (JString title) ->
     effects = [SetValue (content r);
                Notice ("Fetched data for " +:+ DOUBLE_QUOTE +:+ title +:+ DOUBLE_QUOTE)]) /\
  (replaced r <> 0 -> o !! "Title"%string = None ->
     effects = [SetValue (content r);
                Notice ("Fetched data for " +:+ DOUBLE_QUOTE +:+ "undefined"
                        +:+ DOUBLE_QUOTE)]).
Proof.
  intros Hmatch Hres Hstatus Hbody Hresponse Hid. cbv zeta.
  rewrite (fetchMovieData_matched b g1 g2) by assumption. cbn [fst].
  rewrite perform_unfold, Hres. cbn [fst executeRequest_result].
  apply Z.leb_gt in Hstatus. rewrite Hstatus, Hbody. cbn [loosely_null].
  assert (classify (command_call apiKey g1 g2) (JObject o) = Returns (JObject o)) as ->.
  { unfold classify, command_call, isApiError, isDetailResult.
    cbn [typeof is_null get]. unfold get_property. rewrite Hresponse, Hid.
    reflexivity. }
  cbn [completion record_of]. cbv zeta. repeat split.
  - intros ->. reflexivity.
  - intros Hcount title Htitle. apply Nat.eqb_neq in Hcount. rewrite Hcount.
    cbn [get]. unfold get_property. rewrite Htitle. reflexivity.
  - intros Hcount Htitle. apply Nat.eqb_neq in Hcount. rewrite Hcount.
    cbn [get]. unfold get_property. rewrite Htitle. reflexivity.
Qed.

(** X22. A [Title] that is an object with an own [toString] cannot be put
    into the notice.  The conversion throws after the note has been
    written: the note holds the new content, and the notice is the one of
    an unknown error. *)
Theorem note_written_before_title_converted (b : string) (g1 g2 : list ascii)
    (apiKey note : string) (t : Trace) (response : RequestUrlResponse)
    (o title : gmap string JsValue) (id : string) (own : JsValue) :
  FILENAME_PATTERN_match (list_ascii_of_string b) = Some (g1, g2) ->
  requestUrl t (request_for (call_url (command_call apiKey g1 g2))) = Resolves response ->
  (status response < 400)%Z ->
  json response = JObject o ->
  o !! "Response"%string = Some (JString "True") ->
  o !! "imdbID"%string = Some (JString id) ->
  o !! "Title"%string = Some (JObject title) ->
  title !! "toString"%string = Some own ->
  replaced (applyTemplate note o) <> 0 ->
  (fetchMovieData (Some b) apiKey note t).1 =
    [SetValue (content (applyTemplate note o));
     Notice "Unknown error fetching movie data"].
Proof.
  intros Hmatch Hres Hstatus Hbody Hresponse Hid Htitle Hown Hcount.
  rewrite (fetchMovieData_matched b g1 g2) by assumption. cbn [fst].
  rewrite perform_unfold, Hres. cbn [fst executeRequest_result].
  apply Z.leb_gt in Hstatus. rewrite Hstatus, Hbody. cbn [loosely_null].
  assert (classify (command_call apiKey g1 g2) (JObject o) = Returns (JObject o)) as ->.
  { unfold classify, command_call, isApiError, isDetailResult.
    cbn [typeof is_null get]. unfold get_property. rewrite Hresponse, Hid.
    reflexivity. }
  cbn [completion record_of]. cbv zeta.
  apply Nat.eqb_neq in Hcount. rewrite Hcount.
  cbn [get]. unfold get_property. rewrite Htitle. cbn [ToString]. rewrite Hown.
  reflexivity.
Qed.

End Run.

(** *** Instances *)



Lemma year_of_digits_witness :
  (0 <= parseInt (list_ascii_of_string "1997") <= 9999)%Z /\
  (forall c rest, list_ascii_of_string "1997" = c :: rest -> c <> "0"%char ->
     Number_toString (parseInt (list_ascii_of_string "1997"))
     = string_of_list_ascii (list_ascii_of_string "1997")).
Proof.
  apply (year_of_digits (list_ascii_of_string "1997")).
  - reflexivity.
  - repeat constructor.
Defined.

Lemma film_name_groups :
  FILENAME_PATTERN_match (list_ascii_of_string film_name)
  = Some (list_ascii_of_string "Good Will Hunting", list_ascii_of_string "1997").
Proof. vm_compute. reflexivity. Qed.

(** OMDb does not know the film. *)
Lemma failure_reported_witness :
  (fetchMovieData form_urlencode (answers 200 not_found)
     (Some film_name) "k" film_note []).1
  = [Notice "Movie not found!"].
Proof.
  apply (proj2 (proj2 (proj2
           (failure_reported form_urlencode (answers 200 not_found) film_name
              (list_ascii_of_string "Good Will Hunting") (list_ascii_of_string "1997")
              "k" film_note [] film_name_groups)))
           {| status := 200; json := not_found |}
           {[ "Response"%string := JString "False";
              "Error"%string := JString "Movie not found!" ]}
           "Movie not found!"%string).
  - reflexivity.
  - cbn. lia.
  - reflexivity.
  - vm_compute. reflexivity.
  - vm_compute. reflexivity.
Defined.

(** OMDb knows the film. *)
Lemma success_written_and_announced_witness :
  (fetchMovieData form_urlencode (answers 200 (JObject good_will_hunting))
     (Some film_name) "k" film_note []).1
  = [SetValue (content (applyTemplate film_note good_will_hunting));
     Notice ("Fetched data for " +:+ DOUBLE_QUOTE +:+ "Good Will Hunting"
             +:+ DOUBLE_QUOTE)].
Proof.
  assert (o_id : good_will_hunting !! "imdbID"%string = Some (JString "tt1285016"))
    by (vm_compute; reflexivity).
  assert (o_response : good_will_hunting !! "Response"%string = Some (JString "True"))
    by (vm_compute; reflexivity).
  assert (o_title : good_will_hunting !! "Title"%string
                    = Some (JString "Good Will Hunting"))
    by (vm_compute; reflexivity).
  assert (counted : replaced (applyTemplate film_note good_will_hunting) <> 0)
    by (vm_compute; discriminate).
  assert (status_ok : (status {| status := 200; json := JObject good_will_hunting |}
                       < 400)%Z) by (cbn; lia).
  exact (proj1 (proj2
           (success_written_and_announced form_urlencode
              (answers 200 (JObject good_will_hunting)) film_name
              (list_ascii_of_string "Good Will Hunting") (list_ascii_of_string "1997")
              "k" film_note [] {| status := 200; json := JObject good_will_hunting |}
              good_will_hunting "tt1285016"
              film_name_groups eq_refl status_ok eq_refl o_response o_id))
           counted "Good Will Hunting"%string o_title).
Defined.

(** The note is filled in, and the command reports an error. *)
Lemma note_written_before_title_converted_witness :
  (fetchMovieData form_urlencode (answers 200 (JObject title_is_object))
     (Some film_name) "k" film_note []).1
  = [SetValue (content (applyTemplate film_note title_is_object));
     Notice "Unknown error fetching movie data"].
Proof.
  apply (note_written_before_title_converted form_urlencode
           (answers 200 (JObject title_is_object)) film_name
           (list_ascii_of_string "Good Will Hunting") (list_ascii_of_string "1997")
           "k" film_note [] {| status := 200; json := JObject title_is_object |}
           title_is_object {[ "toString"%string := JNumber 1 ]}
           "tt0000003" (JNumber 1)).
  - exact film_name_groups.
  - reflexivity.
  - cbn. lia.
  - reflexivity.
  - vm_compute. reflexivity.
  - vm_compute. reflexivity.
  - vm_compute. reflexivity.
  - vm_compute. reflexivity.
  - vm_compute. discriminate.
Defined.

End CommandProperties.

(* ===================================================================== *)
(** ** Properties of the settings *)
(* ===================================================================== *)

Module PluginProperties.

Import Plugin.

Lemma index_not_key (n : Z) : Number_toString n <> "omdbApiKey"%string.
Proof.
  unfold Number_toString. destruct (Z.to_int n) as [d | d]; destruct d; discriminate.
Qed.

Lemma own_enumerable_key (source : JsValue) :
  own_enumerable source !! "omdbApiKey"%string =
    match source with JObject o => o !! "omdbApiKey"%string | _ => None end.
Proof.
  destruct source as [| | | | s | l | o |]; try reflexivity; cbn [own_enumerable].
  - apply not_elem_of_list_to_map_1. intros Hin.
    apply list_elem_of_fmap in Hin as ([k v] & Hk & Hin).
    apply elem_of_lookup_imap in Hin as (i & y & Heq & _).
    inversion Heq; subst. exact (index_not_key _ (eq_sym Hk)).
  - apply not_elem_of_list_to_map_1. intros Hin.
    apply list_elem_of_fmap in Hin as ([k v] & Hk & Hin).
    apply elem_of_lookup_imap in Hin as (i & y & Heq & _).
    inversion Heq; subst. exact (index_not_key _ (eq_sym Hk)).
Qed.

Lemma Object_assign_lookup (target : gmap string JsValue) (source : JsValue)
    (key : string) :
  Object_assign target source !! key =
    if decide (key = "__proto__"%string) then target !! key
    else match own_enumerable source !! key with
         | Some v => Some v
         | None => target !! key
         end.
Proof.
  unfold Object_assign. rewrite lookup_union, map_lookup_filter.
  destruct (own_enumerable source !! key) as [v |] eqn:Hown; cbn.
  - destruct (decide (key = "__proto__"%string)) as [-> | Hne].
    + rewrite option_guard_False by (cbn; intros H; apply H; reflexivity).
      cbn. destruct (target !! "__proto__"%string); reflexivity.
    + rewrite option_guard_True by exact Hne. cbn.
      destruct (target !! key); reflexivity.
  - destruct (decide _); destruct (target !! key); reflexivity.
Qed.

Lemma defaults_assigned : Object_assign ∅ (JObject DEFAULT_SETTINGS) = DEFAULT_SETTINGS.
Proof.
  apply map_eq. intros key. rewrite Object_assign_lookup. cbn [own_enumerable].
  rewrite lookup_empty. unfold DEFAULT_SETTINGS.
  destruct (decide (key = "__proto__"%string)) as [-> | Hne]; [reflexivity |].
  destruct (_ !! key); reflexivity.
Qed.

(** Settings that own the key and no [__proto__] come back from the data
    they were saved as. *)
Lemma saved_settings_loaded (s : gmap string JsValue) :
  is_Some (s !! "omdbApiKey"%string) -> s !! "__proto__"%string = None ->
  settings (loadSettings (JObject s)) = s.
Proof.
  intros [v Hkey] Hproto. unfold loadSettings. cbn [settings].
  rewrite defaults_assigned. apply map_eq. intros key.
  rewrite Object_assign_lookup. cbn [own_enumerable].
  destruct (decide (key = "__proto__"%string)) as [-> | Hne].
  - rewrite Hproto. reflexivity.
  - destruct (s !! key) eqn:Hlook; [reflexivity |].
    unfold DEFAULT_SETTINGS. apply lookup_singleton_ne. congruence.
Qed.

(** X23. After [loadSettings] the settings own an API key: the one of the
    stored data when these are an object that owns one, of whatever type,
    and the default in every other case. *)
Theorem api_key_after_load (data : JsValue) :
  settings (loadSettings data) !! "omdbApiKey"%string =
    Some match data with
         | JObject o => default (JString "default") (o !! "omdbApiKey"%string)
         | _ => JString "default"
         end.
Proof.
  unfold loadSettings. cbn [settings].
  rewrite defaults_assigned, Object_assign_lookup, own_enumerable_key.
  destruct (decide _) as [Heq | _]; [discriminate |].
  destruct data as [| | | | | | o |]; try reflexivity.
  destruct (o !! "omdbApiKey"%string); reflexivity.
Qed.

(** X24. The settings survive a restart.  Whatever the stored data at the
    start and however often the key is changed in the settings tab,
    loading again from what the plugin has stored gives the same settings,
    the key in them is the last value entered, and once a change was made
    the stored data are these settings. *)
Theorem settings_survive_restart (data : JsValue) (values : list string) :
  let p := after_changes data values in
  settings (loadSettings (stored p)) = settings p /\
  (forall value, last values = Some value ->
     settings p !! "omdbApiKey"%string = Some (JString value)) /\
  (values <> [] -> stored p = JObject (settings p)).
Proof.
  cbv zeta. unfold after_changes.
  assert (forall p,
            is_Some (settings p !! "omdbApiKey"%string) ->
            settings p !! "__proto__"%string = None ->
            forall value,
              let p' := onChange value p in
              settings p' !! "omdbApiKey"%string = Some (JString value) /\
              settings p' !! "__proto__"%string = None /\
              stored p' = JObject (settings p')) as Hstep.
  { intros p _ Hproto value. cbv zeta. unfold onChange, saveSettings. cbn [settings stored].
    split; [apply lookup_insert_eq |]. split; [| reflexivity].
    rewrite lookup_insert_ne by discriminate. exact Hproto. }
  assert (let p := fold_left (fun p value => onChange value p) values (loadSettings data) in
          is_Some (settings p !! "omdbApiKey"%string) /\
          settings p !! "__proto__"%string = None /\
          (forall value, last values = Some value ->
             settings p !! "omdbApiKey"%string = Some (JString value)) /\
          (values <> [] -> stored p = JObject (settings p)) /\
          (values = [] -> stored p = data)) as Hinv.
  { induction values as [| value values IH] using rev_ind; cbv zeta.
    - cbn [fold_left]. split; [| split; [| split; [| split]]].
      + unfold loadSettings. cbn [settings].
        rewrite defaults_assigned, Object_assign_lookup, own_enumerable_key.
        destruct (decide _) as [Heq | _]; [discriminate |].
        destruct data as [| | | | | | o |]; try (eexists; reflexivity).
        destruct (o !! "omdbApiKey"%string); eexists; reflexivity.
      + unfold loadSettings. cbn [settings].
        rewrite defaults_assigned, Object_assign_lookup.
        destruct (decide _) as [_ | Hne]; [reflexivity | contradiction].
      + intros value. discriminate.
      + contradiction.
      + reflexivity.
    - rewrite fold_left_app. cbn [fold_left].
      cbv zeta in IH. destruct IH as (Hkey & Hproto & _).
      destruct (Hstep _ Hkey Hproto value) as (Hkey' & Hproto' & Hstored').
      split; [rewrite Hkey'; eexists; reflexivity |].
      split; [exact Hproto' |]. split; [| split].
      + intros value'. rewrite last_snoc. intros [= <-]. exact Hkey'.
      + intros _. exact Hstored'.
      + intros Hnil. destruct values; discriminate. }
  cbv zeta in Hinv. destruct Hinv as (Hkey & Hproto & Hlast & Hstored & Hdata).
  split; [| split; assumption].
  destruct values as [| value values].
  - rewrite Hdata; reflexivity.
  - rewrite Hstored by discriminate. apply saved_settings_loaded; assumption.
Qed.

End PluginProperties.
